(** * nsw-campsites: availability enrichment of campground records

    A shallow embedding of [main.py]: the identifier extractor
    ([extract_context_id]), the availability fetcher
    ([fetch_availability_dates]), the classifier
    ([determine_availability]) and the enrichment loop of [main],
    followed by the properties the specification states about them. *)

From Stdlib Require Import ZArith NArith List String Ascii Bool Lia.
From Stdlib Require Import Floats.SpecFloat.
From stdpp Require Import gmap list.

Local Open Scope Z_scope.
Set Warnings "-register-all".

(** ** Python strings

    A Python [str] is a sequence of Unicode code points. *)

Module PyStr.

Abbreviation str := (list N).

(** A literal, written with the ASCII characters of a Rocq string. *)
Definition u (s : string) : str :=
  List.map N_of_ascii (list_ascii_of_string s).

(** [str.isspace] on one code point, the set [str.strip()] removes:
    the characters of bidirectional type WS, B or S and of category Zs. *)
Definition isspace (c : N) : bool :=
  ((9 <=? c) && (c <=? 13) || (28 <=? c) && (c <=? 32)
   || (c =? 133) || (c =? 160) || (c =? 5760)
   || (8192 <=? c) && (c <=? 8202)
   || (c =? 8232) || (c =? 8233) || (c =? 8239) || (c =? 8287)
   || (c =? 12288))%N.

Fixpoint lstrip (s : str) : str :=
  match s with
  | [] => []
  | c :: r => if isspace c then lstrip r else s
  end.

Definition rstrip (s : str) : str := rev (lstrip (rev s)).

(** [s.strip()] *)
Definition strip (s : str) : str := rstrip (lstrip s).

(** [s.startswith(p)] and [s.endswith(p)] *)
Fixpoint startswith (s p : str) {struct p} : bool :=
  match p, s with
  | [], _ => true
  | _ :: _, [] => false
  | c :: p', d :: s' => (c =? d)%N && startswith s' p'
  end.

Definition endswith (s p : str) : bool := startswith (rev s) (rev p).

(** A slice bound of [s[start:stop]] brought into [0 .. len]: a negative
    bound counts from the end. *)
Definition slice_bound (len i : Z) : Z :=
  if i <? 0 then Z.max 0 (i + len) else Z.min i len.

(** [s[start:stop]] *)
Definition slice {A} (s : list A) (start stop : Z) : list A :=
  let len := Z.of_nat (length s) in
  let lo := slice_bound len start in
  let hi := slice_bound len stop in
  take (Z.to_nat (hi - lo)) (drop (Z.to_nat lo) s).

(** Truth value of a string: non-empty. *)
Definition str_truthy (s : str) : bool :=
  match s with [] => false | _ :: _ => true end.

(** [a == b] on strings. *)
Definition str_eqb (a b : str) : bool := bool_decide (a = b).

(** The first, respectively last, character is whitespace. *)
Definition lead_space (s : str) : bool :=
  match s with c :: _ => isspace c | [] => false end.

Definition trail_space (s : str) : bool := lead_space (rev s).

Definition lbrace : N := 123%N.
Definition rbrace : N := 125%N.

End PyStr.
Export PyStr.

(** ** 4.1 Identifier extractor *)

(** [extract_context_id(raw_id)]; the argument is a string or [None]. *)
Definition extract_context_id (raw_id : option str) : option str :=
  match raw_id with
  | None => None
  | Some raw =>
      if negb (str_truthy raw) then None
      else
        let cleaned := strip raw in
        let cleaned :=
          if startswith cleaned [lbrace] && endswith cleaned [rbrace]
          then slice cleaned 1 (-1)
          else cleaned in
        if str_truthy cleaned then Some cleaned else None
  end.

(** The extractor as the specification words it: the result of removing the
    brace pair is trimmed once more. *)
Definition extract_context_id_spec (raw_id : option str) : option str :=
  match raw_id with
  | None => None
  | Some raw =>
      let cleaned := strip raw in
      let cleaned :=
        if startswith cleaned [lbrace] && endswith cleaned [rbrace]
        then slice cleaned 1 (-1)
        else cleaned in
      let cleaned := strip cleaned in
      if str_truthy cleaned then Some cleaned else None
  end.

(** ** Python values

    The values [json.load] and [Response.json] produce, and [None]. *)

Inductive pyval :=
| PNone
| PBool (b : bool)
| PInt (z : Z)
| PFloat (f : spec_float)
| PStr (s : str)
| PList (l : list pyval)
| PDict (d : gmap str pyval).

(** Truth value, as [if v], [not v] and [v or w] test it. *)
Definition truthy (v : pyval) : bool :=
  match v with
  | PNone => false
  | PBool b => b
  | PInt z => negb (z =? 0)
  | PFloat (S754_zero _) => false
  | PFloat _ => true
  | PStr s => str_truthy s
  | PList l => match l with [] => false | _ :: _ => true end
  | PDict d => negb (bool_decide (d = ∅))
  end.

(** [a or b] *)
Definition py_or (a b : pyval) : pyval := if truthy a then a else b.

(** [isinstance(v, str)], [isinstance(v, list)], [isinstance(v, dict)] *)
Definition is_str (v : pyval) : bool :=
  match v with PStr _ => true | _ => false end.
Definition is_list (v : pyval) : bool :=
  match v with PList _ => true | _ => false end.
Definition is_dict (v : pyval) : bool :=
  match v with PDict _ => true | _ => false end.

(** [d.get(k)]: the value, or [None] for a missing key. *)
Definition dict_get (d : gmap str pyval) (k : str) : pyval :=
  match d !! k with Some v => v | None => PNone end.

(** The strings of a list that [all(isinstance(d, str) for d in l)] accepts. *)
Fixpoint strs_of (l : list pyval) : option (list str) :=
  match l with
  | [] => Some []
  | PStr s :: r => option_map (cons s) (strs_of r)
  | _ :: _ => None
  end.

(** [Optional[List[str]]] as a value. *)
Definition of_dates (dates : option (list str)) : pyval :=
  match dates with
  | None => PNone
  | Some ds => PList (List.map PStr ds)
  end.

Definition of_optstr (o : option str) : pyval :=
  match o with None => PNone | Some s => PStr s end.

(** ** Exceptions, and computations that print and call the network *)

(** The exception classes the program can meet, all below [Exception]. *)
Inductive exn :=
| ConnectionError
| ReadTimeout
| HTTPError
| JSONDecodeError
| ValueError (msg : str)
| AttributeError
| TypeError
| OSError.

Inductive result (A : Type) :=
| Ret (a : A)
| Raise (e : exn).
Arguments Ret {A} a.
Arguments Raise {A} e.

Abbreviation cookies := (list (str * str)).

(** What one [session.get(...)], [raise_for_status()], [json()] sequence
    comes to: the first call that raises, or the decoded body. *)
Inductive http_outcome :=
| GetRaises (e : exn)
| StatusRaises (e : exn)
| JsonRaises (e : exn)
| Payload (p : pyval).

Record datetime := { year : N; month : N; day : N }.

(** Everything outside the program that a run depends on. *)
Record env := {
  root_dir : str;                               (* str(ROOT_DIR), a resolved path *)
  path_exists : bool;                           (* ALL_CAMPGROUNDS_PATH.exists() *)
  json_load : result pyval;                     (* open the file and json.load *)
  cached_session : result unit;                 (* CachedSession(...) *)
  now : datetime;                               (* datetime.today() *)
  get_root : result cookies;                    (* requests.get(site root).cookies *)
  (* session.get on the availability endpoint, answered by the network or
     from the cache: the earlier calls, the identifier, the cookies *)
  session_get : list str -> str -> cookies -> http_outcome;
  render : list pyval -> result unit            (* create_map(...).save(...) *)
}.

(** What a run leaves behind. *)
Record world := {
  requests : list str;      (* contextItemId of each call of session.get, in order *)
  stdout : list str;
  stderr : list str
}.

Definition M (A : Type) : Type := world -> result A * world.

Definition ret {A} (a : A) : M A := fun w => (Ret a, w).
Definition raise {A} (e : exn) : M A := fun w => (Raise e, w).
Definition bind {A B} (m : M A) (k : A -> M B) : M B :=
  fun w => match m w with
           | (Ret a, w') => k a w'
           | (Raise e, w') => (Raise e, w')
           end.
Definition lift {A} (r : result A) : M A := fun w => (r, w).

(** [try: body  except Exception: handler] *)
Definition try_except {A} (body : M A) (handler : exn -> M A) : M A :=
  fun w => match body w with
           | (Ret a, w') => (Ret a, w')
           | (Raise e, w') => handler e w'
           end.

Declare Scope py_scope.
Delimit Scope py_scope with py.
Notation "'let*' x ':=' m 'in' k" := (bind m (fun x => k))
  (at level 10, x name, m at level 100, k at level 200) : py_scope.
Notation "'run' m 'in' k" := (bind m (fun _ => k))
  (at level 10, m at level 100, k at level 200) : py_scope.
Local Open Scope py_scope.

Definition print (line : str) : M unit :=
  fun w => (Ret tt, {| requests := requests w; stdout := stdout w ++ [line];
                       stderr := stderr w |}).
Definition print_err (line : str) : M unit :=
  fun w => (Ret tt, {| requests := requests w; stdout := stdout w;
                       stderr := stderr w ++ [line] |}).

(** ** 4.3 Availability fetcher *)

(** The body of the [try]: one call of [session.get], which the caching
    session answers from the network or from its cache, then the status
    check and the JSON decoding. *)
Definition request_payload (E : env) (context_id : str) (ck : cookies) : M pyval :=
  fun w =>
    let w' := {| requests := requests w ++ [context_id]; stdout := stdout w;
                 stderr := stderr w |} in
    match session_get E (requests w) context_id ck with
    | GetRaises e => (Raise e, w')
    | StatusRaises e => (Raise e, w')
    | JsonRaises e => (Raise e, w')
    | Payload p => (Ret p, w')
    end.

(** The part of [fetch_availability_dates] after the [try]. *)
Definition parse_payload (payload : pyval) : option (list str) :=
  let from_dict :=
    match payload with
    | PDict d =>
        let dates := py_or (dict_get d (u "dates")) (dict_get d (u "Dates")) in
        match dates with
        | PList l => strs_of l
        | _ => None
        end
    | _ => None
    end in
  match from_dict with
  | Some ds => Some ds
  | None =>
      match payload with
      | PList l => strs_of l
      | _ => None
      end
  end.

Definition fetch_availability_dates (E : env) (context_id : str) (ck : cookies)
  : M (option (list str)) :=
  try_except
    (let* payload := request_payload E context_id ck in
     ret (parse_payload payload))
    (fun _ => ret None).

(** ** 4.4 Availability classifier *)

Definition digit (n : N) : N := (48 + n mod 10)%N.

(** The year as [%Y] writes it through the C library of Linux: in decimal,
    with no leading zeros (999 for the year 999). *)
Definition year_text (y : N) : str :=
  if (y <? 10)%N then [digit y]
  else if (y <? 100)%N then [digit (y / 10); digit y]
  else if (y <? 1000)%N then [digit (y / 100); digit (y / 10); digit y]
  else [digit (y / 1000); digit (y / 100); digit (y / 10); digit y].

(** [today.strftime("%d/%m/%Y")]: day and month on two digits, then the
    year. *)
Definition strftime_dmY (today : datetime) : str :=
  [digit (day today / 10); digit (day today); 47%N;
   digit (month today / 10); digit (month today); 47%N]
  ++ year_text (year today).

(** The day as the specification words it, DD/MM/YYYY: the year on four
    digits whatever it is. *)
Definition strftime_dmY_spec (today : datetime) : str :=
  [digit (day today / 10); digit (day today); 47%N;
   digit (month today / 10); digit (month today); 47%N;
   digit (year today / 1000); digit (year today / 100);
   digit (year today / 10); digit (year today)].

(** The dates a [datetime] can hold. *)
Definition valid_datetime (t : datetime) : Prop :=
  (1 <= year t <= 9999 /\ 1 <= month t <= 12 /\ 1 <= day t <= 31)%N.

(** [x in l] for a string and a list of strings. *)
Definition str_in (x : str) (l : list str) : bool := existsb (str_eqb x) l.

Definition determine_availability (today : datetime) (dates : option (list str))
  : str :=
  if negb (truthy (of_dates dates)) then u "unknown"
  else
    let today_str := strftime_dmY today in
    if str_in today_str (default [] dates)
    then u "available" else u "unavailable".

(** ** 4.5 Enrichment loop and [main] *)

(** [load_campgrounds(json_path)] *)
Definition load_campgrounds (E : env) : M (list pyval) :=
  let* data := lift (json_load E) in
  match data with
  | PList l => ret l
  | _ => raise (ValueError (u "all_campground.json: expected a list of objects"))
  end.

(** [cg.get(key)] on an element of the list: only a dict has [get]. *)
Definition py_get (cg : pyval) (key : str) : M pyval :=
  match cg with
  | PDict d => ret (dict_get d key)
  | _ => raise AttributeError
  end.

(** [dict(cg)]: reached only after [cg.get] went through. *)
Definition py_dict (cg : pyval) : M (gmap str pyval) :=
  match cg with
  | PDict d => ret d
  | _ => raise TypeError
  end.

(** One turn of the [for cg in campgrounds] loop: the record appended to
    [enriched]. *)
Definition enrich_record (E : env) (today : datetime) (ck : cookies) (cg : pyval)
  : M pyval :=
  let* raw_id := py_get cg (u "id") in
  let context_id :=
    match raw_id with
    | PStr s => extract_context_id (Some s)
    | _ => None
    end in
  let* dates :=
    (if truthy (of_optstr context_id)
     then match context_id with
          | Some c => fetch_availability_dates E c ck
          | None => ret None
          end
     else ret None) in
  let status := determine_availability today dates in
  let* cg_copy := py_dict cg in
  let cg_copy := <[u "_context_id" := of_optstr context_id]> cg_copy in
  let cg_copy := <[u "_dates" := of_dates dates]> cg_copy in
  let cg_copy := <[u "_availability" := PStr status]> cg_copy in
  ret (PDict cg_copy).

(** The whole loop: [enriched] at its end. *)
Fixpoint enrich_loop (E : env) (today : datetime) (ck : cookies)
    (campgrounds : list pyval) : M (list pyval) :=
  match campgrounds with
  | [] => ret []
  | cg :: rest =>
      let* cg_copy := enrich_record E today ck cg in
      let* enriched := enrich_loop E today ck rest in
      ret (cg_copy :: enriched)
  end.

(** [ROOT_DIR / "all_campground.json"] as a string: the separator is added
    unless the directory, being a root, already ends with it. *)
Definition ALL_CAMPGROUNDS_PATH (E : env) : str :=
  if endswith (root_dir E) (u "/")
  then root_dir E ++ u "all_campground.json"
  else root_dir E ++ u "/all_campground.json".

Definition OUTPUT_MAP_PATH : str := u "index.html".

(** [main()]: the exit code. *)
Definition main (E : env) : M Z :=
  if negb (path_exists E) then
    run print_err (u "Missing file: " ++ ALL_CAMPGROUNDS_PATH E) in
    ret 1
  else
    let* campgrounds := load_campgrounds E in
    let* session := lift (cached_session E) in
    let today := now E in
    let* ck := lift (get_root E) in
    let* enriched := enrich_loop E today ck campgrounds in
    run lift (render E enriched) in
    run print (u "Wrote map to " ++ OUTPUT_MAP_PATH) in
    ret 0.

Definition world0 : world := {| requests := []; stdout := []; stderr := [] |}.

(** ** Notions the properties are stated with *)

(** [cleaned or None] *)
Definition or_none (cleaned : str) : option str :=
  match cleaned with [] => None | _ :: _ => Some cleaned end.

(** A value is the list of strings [ds]. *)
Definition string_list (v : pyval) (ds : list str) : Prop :=
  v = PList (List.map PStr ds).

(** The response parsing as the specification words it: of the values under
    [dates] and [Dates], in this order, the first that is a list of strings;
    else the body itself when it is a list of strings. *)
Definition parse_payload_spec (payload : pyval) : option (list str) :=
  match payload with
  | PDict d =>
      match d !! u "dates" with
      | Some (PList l) =>
          match strs_of l with
          | Some ds => Some ds
          | None =>
              match d !! u "Dates" with
              | Some (PList l') => strs_of l'
              | _ => None
              end
          end
      | _ =>
          match d !! u "Dates" with
          | Some (PList l') => strs_of l'
          | _ => None
          end
      end
  | PList l => strs_of l
  | _ => None
  end.

(** What is returned for a value picked out of a mapping. *)
Definition of_selected (v : pyval) : option (list str) :=
  match v with PList l => strs_of l | _ => None end.

(** The identifier the loop derives from a record. *)
Definition context_id_of (d : gmap str pyval) : option str :=
  match d !! u "id" with
  | Some (PStr s) => extract_context_id (Some s)
  | _ => None
  end.

(** A record with the three derived fields attached. *)
Definition attach (d : gmap str pyval) (context_id : option str)
    (dates : option (list str)) (status : str) : gmap str pyval :=
  <[u "_availability" := PStr status]>
    (<[u "_dates" := of_dates dates]>
       (<[u "_context_id" := of_optstr context_id]> d)).

Definition derived_keys : list str :=
  [u "_context_id"; u "_dates"; u "_availability"].

(** The world after one more call of [session.get]. *)
Definition requested (w : world) (c : str) : world :=
  {| requests := requests w ++ [c]; stdout := stdout w; stderr := stderr w |}.

(** What the fetcher makes of the answer to a call made in [w]. *)
Definition fetched (E : env) (c : str) (ck : cookies) (w : world)
  : option (list str) :=
  match session_get E (requests w) c ck with
  | Payload p => parse_payload p
  | _ => None
  end.

(** The world in which the turn of record [i] of [recs] starts, when the
    loop started in [w]: the calls of the records before it have been made. *)
Definition world_before (w : world) (recs : list (gmap str pyval)) (i : nat) : world :=
  {| requests := requests w ++ omap context_id_of (take i recs);
     stdout := stdout w; stderr := stderr w |}.

(** The record the loop builds from a dict, given the fetched dates. *)
Definition enriched_with (today : datetime) (d : gmap str pyval)
    (dates : option (list str)) : gmap str pyval :=
  attach d (context_id_of d) dates (determine_availability today dates).

(** A record yields no identifier: no [id], or one the extractor rejects. *)
Definition no_identifier (d : gmap str pyval) : Prop :=
  d !! u "id" = None
  \/ exists s, d !! u "id" = Some (PStr s) /\ extract_context_id (Some s) = None.

(** The three derived fields of a record without identifier. *)
Definition unknown_fields (d' : gmap str pyval) : Prop :=
  d' !! u "_availability" = Some (PStr (u "unknown"))
  /\ d' !! u "_dates" = Some PNone
  /\ d' !! u "_context_id" = Some PNone.

(** ** Sample surroundings and bodies *)

Definition may_day : datetime := {| year := 2024; month := 5; day := 1 |}.

(** A run where every availability request comes to [body]. *)
Definition sample_env (present : bool) (data : pyval) (body : http_outcome) : env :=
  {| root_dir := u "/srv/nsw-campsites";
     path_exists := present;
     json_load := Ret data;
     cached_session := Ret tt;
     now := may_day;
     get_root := Ret [];
     session_get := fun _ _ _ => body;
     render := fun _ => Ret tt |}.

Definition dict_of (items : list (str * pyval)) : gmap str pyval :=
  list_to_map items.

Definition both_keys : gmap str pyval :=
  dict_of [(u "dates", PList [PStr (u "01/01/2025")]);
           (u "Dates", PList [PStr (u "02/01/2025")])].

Definition empty_dates : gmap str pyval :=
  dict_of [(u "dates", PList []);
           (u "Dates", PList [PStr (u "02/01/2025")])].

Definition number_dates : gmap str pyval :=
  dict_of [(u "dates", PList [PInt 1]);
           (u "Dates", PList [PStr (u "02/01/2025")])].

Definition other_key : gmap str pyval := dict_of [(u "other", PInt 1)].

Definition record_A : gmap str pyval :=
  dict_of [(u "id", PStr (u "{X1}")); (u "title", PStr (u "Alpha"))].

Definition record_B : gmap str pyval :=
  dict_of [(u "title", PStr (u "Beta"))].

Definition record_blank : gmap str pyval :=
  dict_of [(u "id", PStr (u " {} ")); (u "title", PStr (u "Gamma"))].

Definition record_num : gmap str pyval :=
  dict_of [(u "id", PInt 42); (u "title", PStr (u "Delta"))].

Definition today_body : http_outcome :=
  Payload (PDict (dict_of [(u "dates", PList [PStr (u "01/05/2024")])])).

(** ** Map rendering: [create_map] *)

(** One [folium.Marker] put on the cluster: where, the popup text and the
    colour of its icon. *)
Record marker := {
  location : spec_float * spec_float;
  popup : str;
  color : str
}.

(** The map [create_map] returns: the markers in the order they were added,
    and whether [fit_bounds] was called on it. *)
Record folium_map := {
  markers : list marker;
  fitted : bool
}.

(** The builtins and the mapping library [create_map] relies on. *)
Record folium := {
  to_float : pyval -> option spec_float;  (* float(v) of a str, int or bool; None when it raises *)
  to_text : pyval -> str;                 (* format(v, "") of a value that is no str *)
  new_map : result unit;                  (* folium.Map(...), MarkerCluster().add_to(...) *)
  (* Popup, Icon, Marker and add_to, after the markers already placed *)
  add_marker : list marker -> marker -> result unit;
  fit_bounds : list (spec_float * spec_float) -> result unit;
  save_map : folium_map -> result unit    (* fmap.save(OUTPUT_MAP_PATH) *)
}.

Definition result_bind {A B} (r : result A) (k : A -> result B) : result B :=
  match r with
  | Ret a => k a
  | Raise e => Raise e
  end.

Notation "'let?' x ':=' r 'in' k" := (result_bind r (fun x => k))
  (at level 10, x name, r at level 100, k at level 200) : py_scope.

(** [float(v)]: [None], a list and a dict raise [TypeError], a float is
    itself. *)
Definition py_float (F : folium) (v : pyval) : option spec_float :=
  match v with
  | PNone | PList _ | PDict _ => None
  | PFloat f => Some f
  | _ => to_float F v
  end.

(** [v] inside an f-string: a string stands for itself. *)
Definition py_format (F : folium) (v : pyval) : str :=
  match v with
  | PStr s => s
  | _ => to_text F v
  end.

(** [d.get(k, dflt)] *)
Definition dict_get_default (d : gmap str pyval) (k : str) (dflt : pyval) : pyval :=
  match d !! k with Some v => v | None => dflt end.

(** [sep.join(items)]: every item has to be a string. *)
Fixpoint py_join (sep : str) (items : list pyval) : result str :=
  match items with
  | [] => Ret []
  | PStr s :: rest =>
      match rest with
      | [] => Ret s
      | _ :: _ => let? t := py_join sep rest in Ret (s ++ sep ++ t)
      end
  | _ :: _ => Raise TypeError
  end.

Definition color_table : gmap str str :=
  list_to_map [(u "available", u "green");
               (u "unavailable", u "red");
               (u "unknown", u "gray")].

(** [color_table.get(status, "gray")]: a list or a dict is no key. *)
Definition color_of (status : pyval) : result str :=
  match status with
  | PList _ | PDict _ => Raise TypeError
  | PStr s => Ret (match color_table !! s with Some c => c | None => u "gray" end)
  | _ => Ret (u "gray")
  end.

(** The lines of the popup, as a list of values. *)
Definition popup_lines (F : folium) (title context_id status : pyval) : list pyval :=
  if truthy context_id
  then [title;
        PStr (u "ID: " ++ py_format F context_id);
        PStr (u "Status: " ++ py_format F status)]
  else [title; PStr (u "Status: " ++ py_format F status)].

(** One turn of the loop of [create_map], up to the call of
    [folium.Marker]: the marker to place, or [None] where the turn ends in
    [continue]. *)
Definition marker_of (F : folium) (cg : pyval) : result (option marker) :=
  match cg with
  | PDict d =>
      let coords := py_or (dict_get d (u "coords")) (PDict ∅) in
      match coords with
      | PDict c =>
          let lat_raw := dict_get c (u "lat") in
          let lon_raw := dict_get c (u "lon") in
          match py_float F lat_raw with
          | None => Ret None
          | Some lat =>
              match py_float F lon_raw with
              | None => Ret None
              | Some lon =>
                  let status :=
                    dict_get_default d (u "_availability") (PStr (u "unknown")) in
                  let title :=
                    dict_get_default d (u "title") (PStr (u "Unknown campground")) in
                  let context_id := dict_get d (u "_context_id") in
                  let? colour := color_of status in
                  let? text :=
                    py_join (u "<br/>") (popup_lines F title context_id status) in
                  Ret (Some {| location := (lat, lon); popup := text;
                               color := colour |})
              end
          end
      | _ => Raise AttributeError
      end
  | _ => Raise AttributeError
  end.

(** The loop of [create_map]: the markers on the cluster at its end, after
    those in [placed]. *)
Fixpoint place_markers (F : folium) (campgrounds : list pyval)
    (placed : list marker) : result (list marker) :=
  match campgrounds with
  | [] => Ret placed
  | cg :: rest =>
      let? turn := marker_of F cg in
      match turn with
      | None => place_markers F rest placed
      | Some m =>
          let? _ := add_marker F placed m in
          place_markers F rest (placed ++ [m])
      end
  end.

(** [create_map(campgrounds)] *)
Definition create_map (F : folium) (campgrounds : list pyval) : result folium_map :=
  let? _ := new_map F in
  let? placed := place_markers F campgrounds [] in
  match placed with
  | [] => Ret {| markers := placed; fitted := false |}
  | _ :: _ =>
      let? _ := fit_bounds F (List.map location placed) in
      Ret {| markers := placed; fitted := true |}
  end.

(** [create_map(enriched)] followed by [fmap.save(...)], the rendering step
    of [main]. *)
Definition render_with (F : folium) (enriched : list pyval) : result unit :=
  let? fmap := create_map F enriched in
  save_map F fmap.

(** The surroundings [E] with the rendering done through [F]. *)
Definition with_folium (E : env) (F : folium) : env :=
  {| root_dir := root_dir E;
     path_exists := path_exists E;
     json_load := json_load E;
     cached_session := cached_session E;
     now := now E;
     get_root := get_root E;
     session_get := session_get E;
     render := render_with F |}.

(** The marker a record gets when its turn reaches [folium.Marker]. *)
Definition marker_at (F : folium) (cg : pyval) : option marker :=
  match marker_of F cg with
  | Ret (Some m) => Some m
  | _ => None
  end.

(** A mapping library that never raises; integers convert to floats of
    exponent zero, no string does. *)
Definition sample_folium : folium :=
  {| to_float := fun v =>
       match v with
       | PInt 0 => Some (S754_zero false)
       | PInt (Zpos m) => Some (S754_finite false m 0)
       | PInt (Zneg m) => Some (S754_finite true m 0)
       | _ => None
       end;
     to_text := fun _ => u "?";
     new_map := Ret tt;
     add_marker := fun _ _ => Ret tt;
     fit_bounds := fun _ => Ret tt;
     save_map := fun _ => Ret tt |}.

Definition coords_of (lat lon : Z) : pyval :=
  PDict (dict_of [(u "lat", PInt lat); (u "lon", PInt lon)]).

Definition record_placed : gmap str pyval :=
  dict_of [(u "id", PStr (u "{X1}")); (u "title", PStr (u "Alpha"));
           (u "coords", coords_of (-33) 151)].

Definition record_bad_coords : gmap str pyval :=
  dict_of [(u "title", PStr (u "Epsilon")); (u "coords", PStr (u "-33,151"))].

Definition record_bad_title : gmap str pyval :=
  dict_of [(u "title", PInt 7); (u "coords", coords_of (-33) 151)].

(** * Properties *)

(** ** Strings *)

Section StringFacts.

Lemma lstrip_split (s : str) :
  exists ws, s = ws ++ lstrip s /\ forallb isspace ws = true.
Proof.
  induction s as [|c r [ws [Hr Hws]]]; simpl.
  - exists []. auto.
  - destruct (isspace c) eqn:Hc.
    + exists (c :: ws). simpl. rewrite Hc, Hws. split; [congruence | reflexivity].
    + exists []. auto.
Qed.

Lemma lstrip_lead (s : str) : lead_space (lstrip s) = false.
Proof.
  induction s as [|c r IH]; simpl; [reflexivity|].
  destruct (isspace c) eqn:Hc; [exact IH | simpl; exact Hc].
Qed.

Lemma lstrip_id (s : str) : lead_space s = false -> lstrip s = s.
Proof. destruct s as [|c r]; simpl; [reflexivity|]. intros ->. reflexivity. Qed.

Lemma rstrip_split (s : str) :
  exists ws, s = rstrip s ++ ws /\ forallb isspace ws = true.
Proof.
  unfold rstrip. destruct (lstrip_split (rev s)) as [ws [Hs Hws]].
  exists (rev ws). split.
  - rewrite <- rev_app_distr, <- Hs, rev_involutive. reflexivity.
  - rewrite forallb_forall in *. intros x Hx. apply Hws. now apply in_rev.
Qed.

Lemma rstrip_trail (s : str) : trail_space (rstrip s) = false.
Proof.
  unfold trail_space, rstrip. rewrite rev_involutive. apply lstrip_lead.
Qed.

Lemma rstrip_id (s : str) : trail_space s = false -> rstrip s = s.
Proof.
  unfold trail_space, rstrip. intros H. rewrite (lstrip_id _ H).
  apply rev_involutive.
Qed.

Lemma rstrip_lead (s : str) : lead_space s = false -> lead_space (rstrip s) = false.
Proof.
  intros H. destruct (rstrip_split s) as [ws [Hs _]].
  destruct (rstrip s) as [|c r] eqn:Hr; [reflexivity|].
  rewrite Hs in H. exact H.
Qed.

(** [strip] cuts a run of whitespace at each end, and what is left neither
    starts nor ends with whitespace. *)
Lemma strip_split (s : str) :
  exists ws1 ws2,
    s = ws1 ++ strip s ++ ws2
    /\ forallb isspace ws1 = true /\ forallb isspace ws2 = true
    /\ lead_space (strip s) = false /\ trail_space (strip s) = false.
Proof.
  destruct (lstrip_split s) as [ws1 [H1 Hw1]].
  destruct (rstrip_split (lstrip s)) as [ws2 [H2 Hw2]].
  exists ws1, ws2. unfold strip. repeat split; auto.
  - rewrite <- H2. exact H1.
  - apply rstrip_lead, lstrip_lead.
  - apply rstrip_trail.
Qed.

Lemma strip_id (s : str) :
  lead_space s = false -> trail_space s = false -> strip s = s.
Proof.
  intros Hl Ht. unfold strip. rewrite (lstrip_id _ Hl). now apply rstrip_id.
Qed.

Lemma strip_nil : strip [] = [].
Proof. reflexivity. Qed.

Lemma startswith_char (s : str) (c : N) :
  startswith s [c] = true <-> exists r, s = c :: r.
Proof.
  destruct s as [|d r]; simpl.
  - split; [discriminate | intros [? ?]; discriminate].
  - rewrite andb_true_r, N.eqb_eq. split.
    + intros ->. eauto.
    + intros [? H]. congruence.
Qed.

Lemma endswith_char (s : str) (c : N) :
  endswith s [c] = true <-> exists r, s = r ++ [c].
Proof.
  unfold endswith. simpl rev. rewrite startswith_char. split.
  - intros [r Hr]. exists (rev r).
    rewrite <- (rev_involutive s), Hr. reflexivity.
  - intros [r ->]. exists (rev r). apply rev_unit.
Qed.

(** A string starts with [{] and ends with [}] exactly when it is a string
    put between the two. *)
Lemma braced_iff (t : str) :
  startswith t [lbrace] && endswith t [rbrace] = true
  <-> exists m, t = lbrace :: m ++ [rbrace].
Proof.
  rewrite andb_true_iff, startswith_char, endswith_char. split.
  - intros [[r Hr] [q Hq]]. subst t.
    destruct q as [|a q']; simpl in Hq.
    + discriminate Hq.
    + injection Hq as Ha Hq. subst. eauto.
  - intros [m ->]. split; [eauto | exists (lbrace :: m); reflexivity].
Qed.

(** [t[1:-1]] drops the first and the last character. *)
Lemma slice_inner {A} (a b : A) (m : list A) :
  slice (a :: m ++ [b]) 1 (-1) = m.
Proof.
  unfold slice, slice_bound. simpl length. rewrite length_app. simpl length.
  replace (1 <? 0) with false by reflexivity.
  replace (-1 <? 0) with true by reflexivity.
  rewrite Z.min_l by lia. rewrite Z.max_r by lia.
  change (Z.to_nat 1) with 1%nat. simpl drop.
  replace (Z.to_nat _) with (length m) by lia.
  rewrite drop_0. now rewrite take_app_length.
Qed.

End StringFacts.

(** ** The identifier extractor *)

Section Extractor.

Lemma str_truthy_or_none (t : str) :
  (if str_truthy t then Some t else None) = or_none t.
Proof. destruct t; reflexivity. Qed.

(** The guard on the raw string is subsumed by the final [or None]. *)
Lemma extract_context_id_unfold (s : str) :
  extract_context_id (Some s) =
  or_none (if startswith (strip s) [lbrace] && endswith (strip s) [rbrace]
           then slice (strip s) 1 (-1) else strip s).
Proof.
  unfold extract_context_id. destruct s as [|c r].
  - reflexivity.
  - cbn [str_truthy negb]. apply str_truthy_or_none.
Qed.

Lemma extract_context_id_braced (s m : str) :
  strip s = lbrace :: m ++ [rbrace] ->
  extract_context_id (Some s) = or_none m.
Proof.
  intros H. rewrite extract_context_id_unfold.
  assert (Hb : startswith (strip s) [lbrace] && endswith (strip s) [rbrace] = true)
    by (apply braced_iff; eauto).
  rewrite Hb, H, slice_inner. reflexivity.
Qed.

Lemma extract_context_id_plain (s : str) :
  startswith (strip s) [lbrace] && endswith (strip s) [rbrace] = false ->
  extract_context_id (Some s) = or_none (strip s).
Proof. intros H. rewrite extract_context_id_unfold, H. reflexivity. Qed.

Lemma or_none_cases (t : str) :
  or_none t = None \/ exists r, or_none t = Some r /\ r <> [].
Proof. destruct t as [|c r]; [left | right; exists (c :: r)]; easy. Qed.

End Extractor.

Example extract_context_id_doc :
  extract_context_id (Some (u "  {ABC123}  ")) = Some (u "ABC123").
Proof. reflexivity. Qed.

(** C1 (amended): [extract_context_id] trims the string, takes one brace
    pair off when the trimmed string starts with an opening and ends with a
    closing brace, and returns what is left as it stands, [None] when that
    is empty; nothing is trimmed after the braces are gone. *)
Theorem extract_context_id_trims_then_unbraces (s : str) :
  (exists ws1 ws2,
      s = ws1 ++ strip s ++ ws2
      /\ forallb isspace ws1 = true /\ forallb isspace ws2 = true)
  /\ lead_space (strip s) = false /\ trail_space (strip s) = false
  /\ (forall m, strip s = lbrace :: m ++ [rbrace] ->
        extract_context_id (Some s) = or_none m)
  /\ ((forall m, strip s <> lbrace :: m ++ [rbrace]) ->
        extract_context_id (Some s) = or_none (strip s)).
Proof.
  destruct (strip_split s) as (ws1 & ws2 & Hs & H1 & H2 & Hl & Ht).
  split; [exists ws1, ws2; auto|].
  split; [exact Hl|]. split; [exact Ht|]. split.
  - intros m. apply extract_context_id_braced.
  - intros Hno. apply extract_context_id_plain.
    destruct (startswith (strip s) [lbrace] && endswith (strip s) [rbrace]) eqn:Hb;
      [|reflexivity].
    apply braced_iff in Hb as [m Hm]. destruct (Hno m Hm).
  Qed.

Lemma extract_context_id_trims_then_unbraces_witness :
  extract_context_id (Some (u "  { a }  ")) = Some (u " a ")
  /\ extract_context_id (Some (u " ABC123 ")) = Some (u "ABC123").
Proof.
  split.
  - exact (proj1 (proj2 (proj2 (proj2
             (extract_context_id_trims_then_unbraces (u "  { a }  ")))))
             (u " a ") eq_refl).
  - apply (proj2 (proj2 (proj2 (proj2
             (extract_context_id_trims_then_unbraces (u " ABC123 ")))))).
    intros m H. vm_compute in H. discriminate H.
Defined.

(** C1, as the specification words it, fails: the string between the braces
    is returned with its own leading and trailing whitespace. *)
Lemma extract_context_id_keeps_inner_whitespace :
  let raw := u "{ a }" in
  extract_context_id (Some raw) <> extract_context_id_spec (Some raw)
  /\ exists r, extract_context_id (Some raw) = Some r
              /\ lead_space r = true /\ trail_space r = true.
Proof.
  split.
  - vm_compute. discriminate.
  - exists (u " a "). repeat split.
Qed.

(** C8: the extractor returns [None] or a non-empty string. *)
Theorem extract_context_id_none_or_nonempty (raw_id : option str) :
  extract_context_id raw_id = None
  \/ exists s, extract_context_id raw_id = Some s /\ s <> [].
Proof.
  destruct raw_id as [s|]; [|left; reflexivity].
  rewrite extract_context_id_unfold. apply or_none_cases.
Qed.

(** C6 (amended): for a string with no leading or trailing brace and no
    leading or trailing whitespace, putting it between braces does not
    change the identifier; the empty string and [None] give [None]. *)
Theorem extract_context_id_braces_idempotent :
  (forall s : str,
      startswith s [lbrace] = false -> endswith s [rbrace] = false ->
      lead_space s = false -> trail_space s = false ->
      extract_context_id (Some (lbrace :: s ++ [rbrace]))
      = extract_context_id (Some s))
  /\ extract_context_id (Some []) = None
  /\ extract_context_id None = None.
Proof.
  split; [|split; reflexivity].
  intros s Hsw Hew Hl Ht.
  rewrite (extract_context_id_braced (lbrace :: s ++ [rbrace]) s).
  - rewrite extract_context_id_plain; rewrite (strip_id s Hl Ht).
    + reflexivity.
    + rewrite Hsw. reflexivity.
  - apply strip_id; [reflexivity|].
    unfold trail_space. change (lbrace :: s ++ [rbrace]) with ([lbrace] ++ s ++ [rbrace]).
    rewrite !rev_app_distr. reflexivity.
Qed.

Lemma extract_context_id_braces_idempotent_witness :
  extract_context_id (Some (u "{ABC123}")) = extract_context_id (Some (u "ABC123")).
Proof.
  apply (proj1 extract_context_id_braces_idempotent (u "ABC123")); reflexivity.
Defined.

(** C6, as the specification words it, fails for a brace-free string that
    starts with whitespace. *)
Lemma extract_context_id_braces_keep_whitespace :
  let s := u " a" in
  forallb (fun c => negb ((c =? lbrace)%N || (c =? rbrace)%N)) s = true
  /\ startswith s [lbrace] = false /\ endswith s [rbrace] = false
  /\ extract_context_id (Some (u "{" ++ s ++ u "}")) = Some (u " a")
  /\ extract_context_id (Some s) = Some (u "a")
  /\ extract_context_id (Some (u "{" ++ s ++ u "}")) <> extract_context_id (Some s).
Proof.
  repeat split. vm_compute. discriminate.
Qed.

(** ** The availability fetcher *)

Section Fetcher.

Lemma strs_of_map (ds : list str) : strs_of (List.map PStr ds) = Some ds.
Proof. induction ds as [|a ds IH]; simpl; [|rewrite IH]; reflexivity. Qed.

Lemma strs_of_Some (l : list pyval) (ds : list str) :
  strs_of l = Some ds <-> l = List.map PStr ds.
Proof.
  split; [|intros ->; apply strs_of_map].
  revert ds. induction l as [|v l IH]; simpl; intros ds H.
  - injection H as <-. reflexivity.
  - destruct v; try discriminate H.
    destruct (strs_of l) as [ds'|]; simpl in H; [|discriminate H].
    injection H as <-. simpl. f_equal. now apply IH.
Qed.

Lemma strs_of_None (l : list pyval) :
  strs_of l = None <-> forall ds, l <> List.map PStr ds.
Proof.
  split.
  - intros H ds Hds. apply strs_of_Some in Hds. congruence.
  - intros H. destruct (strs_of l) as [ds|] eqn:Hs; [|reflexivity].
    apply strs_of_Some in Hs. destruct (H ds Hs).
Qed.

Lemma of_selected_Some (v : pyval) (ds : list str) :
  of_selected v = Some ds <-> string_list v ds.
Proof.
  unfold string_list. destruct v; simpl; try (split; [discriminate | congruence]).
  rewrite strs_of_Some. split; congruence.
Qed.

Lemma of_selected_None (v : pyval) :
  of_selected v = None <-> forall ds, ~ string_list v ds.
Proof.
  split.
  - intros H ds Hds. apply of_selected_Some in Hds. congruence.
  - intros H. destruct (of_selected v) as [ds|] eqn:Hs; [|reflexivity].
    apply of_selected_Some in Hs. destruct (H ds Hs).
Qed.

Lemma parse_payload_dict (d : gmap str pyval) :
  parse_payload (PDict d)
  = of_selected (py_or (dict_get d (u "dates")) (dict_get d (u "Dates"))).
Proof.
  unfold parse_payload, of_selected.
  destruct (py_or _ _) as [| | | | |l|]; try reflexivity.
  destruct (strs_of l); reflexivity.
Qed.

(** The fetcher returns, whatever the request comes to. *)
Lemma fetch_availability_dates_run (E : env) (c : str) (ck : cookies) (w : world) :
  fetch_availability_dates E c ck w
  = (Ret match session_get E (requests w) c ck with
         | Payload p => parse_payload p
         | _ => None
         end,
     {| requests := requests w ++ [c]; stdout := stdout w; stderr := stderr w |}).
Proof.
  unfold fetch_availability_dates, try_except, bind, request_payload, ret.
  destruct (session_get E (requests w) c ck); reflexivity.
Qed.

End Fetcher.

(** C2 (amended): for a body that is a mapping, the value under [dates] is
    the one looked at when it is present and truthy, and the value under
    [Dates] otherwise; the fetcher returns the value looked at when it is a
    list of strings and [None] when it is not, without turning to the other
    key. With a non-empty list of strings under [dates], that list is
    returned whatever [Dates] holds. *)
Theorem fetch_availability_dates_key_precedence
    (E : env) (c : str) (ck : cookies) (w : world) (d : gmap str pyval) :
  session_get E (requests w) c ck = Payload (PDict d) ->
  let r := fst (fetch_availability_dates E c ck w) in
  (forall v, d !! u "dates" = Some v -> truthy v = true ->
     (forall ds, string_list v ds -> r = Ret (Some ds))
     /\ ((forall ds, ~ string_list v ds) -> r = Ret None))
  /\ ((d !! u "dates" = None
       \/ exists v, d !! u "dates" = Some v /\ truthy v = false) ->
      (forall v ds, d !! u "Dates" = Some v -> string_list v ds ->
         r = Ret (Some ds))
      /\ ((forall v ds, d !! u "Dates" = Some v -> ~ string_list v ds) ->
          r = Ret None))
  /\ (forall ds1 v2, ds1 <> [] ->
       d !! u "dates" = Some (PList (List.map PStr ds1)) ->
       d !! u "Dates" = Some v2 ->
       r = Ret (Some ds1)).
Proof.
  intros Hp r. subst r. rewrite fetch_availability_dates_run, Hp.
  cbn [fst]. rewrite parse_payload_dict. unfold py_or, dict_get.
  split; [|split].
  - intros v Hv Ht. rewrite Hv, Ht. split.
    + intros ds Hds. f_equal. now apply of_selected_Some.
    + intros Hno. f_equal. now apply of_selected_None.
  - intros Hfalsy.
    assert (Hsel : (if truthy match d !! u "dates" with Some v => v | None => PNone end
                    then match d !! u "dates" with Some v => v | None => PNone end
                    else match d !! u "Dates" with Some v => v | None => PNone end)
                   = match d !! u "Dates" with Some v => v | None => PNone end).
    { destruct Hfalsy as [-> | (v & -> & Hv)].
      - reflexivity.
      - rewrite Hv. reflexivity. }
    rewrite Hsel. split.
    + intros v ds -> Hds. f_equal. now apply of_selected_Some.
    + intros Hno. f_equal. apply of_selected_None. intros ds Hds.
      destruct (d !! u "Dates") as [v|] eqn:Hv.
      * exact (Hno v ds eq_refl Hds).
      * discriminate Hds.
  - intros ds1 v2 Hne -> _.
    destruct ds1 as [|a ds1]; [congruence|]. cbn [truthy List.map].
    f_equal. apply of_selected_Some. reflexivity.
Qed.

Lemma fetch_availability_dates_key_precedence_witness :
  fst (fetch_availability_dates (sample_env true (PList []) (Payload (PDict both_keys)))
         (u "X1") [] world0) = Ret (Some [u "01/01/2025"])
  /\ fst (fetch_availability_dates (sample_env true (PList []) (Payload (PDict empty_dates)))
           (u "X1") [] world0) = Ret (Some [u "02/01/2025"])
  /\ fst (fetch_availability_dates (sample_env true (PList []) (Payload (PDict number_dates)))
           (u "X1") [] world0) = Ret None.
Proof.
  split; [|split].
  - pose proof (fetch_availability_dates_key_precedence
                  (sample_env true (PList []) (Payload (PDict both_keys)))
                  (u "X1") [] world0 both_keys eq_refl) as H.
    cbv zeta in H. destruct H as (_ & _ & H).
    apply (H [u "01/01/2025"] (PList [PStr (u "02/01/2025")])).
    + discriminate.
    + vm_compute. reflexivity.
    + vm_compute. reflexivity.
  - pose proof (fetch_availability_dates_key_precedence
                  (sample_env true (PList []) (Payload (PDict empty_dates)))
                  (u "X1") [] world0 empty_dates eq_refl) as H.
    cbv zeta in H. destruct H as (_ & H & _).
    refine (proj1 (H _) (PList [PStr (u "02/01/2025")]) [u "02/01/2025"] _ _).
    + right. exists (PList []). split; vm_compute; reflexivity.
    + vm_compute. reflexivity.
    + reflexivity.
  - pose proof (fetch_availability_dates_key_precedence
                  (sample_env true (PList []) (Payload (PDict number_dates)))
                  (u "X1") [] world0 number_dates eq_refl) as H.
    cbv zeta in H. destruct H as (H & _ & _).
    refine (proj2 (H (PList [PInt 1]) _ _) _).
    + vm_compute. reflexivity.
    + reflexivity.
    + intros ds Hds. unfold string_list in Hds.
      destruct ds; vm_compute in Hds; discriminate Hds.
Defined.

(** C2, as the specification words it, fails: an empty list under [dates]
    gives way to the list under [Dates], and a list that holds a number
    under [dates] hides the list of strings under [Dates]. *)
Lemma fetch_availability_dates_not_first_string_list :
  fst (fetch_availability_dates
         (sample_env true (PList []) (Payload (PDict empty_dates)))
         (u "X1") [] world0)
  <> Ret (parse_payload_spec (PDict empty_dates))
  /\ fst (fetch_availability_dates
           (sample_env true (PList []) (Payload (PDict number_dates)))
           (u "X1") [] world0)
     <> Ret (parse_payload_spec (PDict number_dates)).
Proof.
  repeat split; vm_compute; discriminate.
Qed.

Example fetch_availability_dates_empty_dates :
  fst (fetch_availability_dates
         (sample_env true (PList []) (Payload (PDict empty_dates)))
         (u "X1") [] world0) = Ret (Some [u "02/01/2025"])
  /\ parse_payload_spec (PDict empty_dates) = Some [].
Proof. split; reflexivity. Qed.

Example fetch_availability_dates_number_dates :
  fst (fetch_availability_dates
         (sample_env true (PList []) (Payload (PDict number_dates)))
         (u "X1") [] world0) = Ret None
  /\ parse_payload_spec (PDict number_dates) = Some [u "02/01/2025"].
Proof. split; reflexivity. Qed.

Example fetch_availability_dates_bare_list :
  fst (fetch_availability_dates
         (sample_env true (PList [])
            (Payload (PList [PStr (u "01/01/2025"); PStr (u "02/01/2025")])))
         (u "X1") [] world0) = Ret (Some [u "01/01/2025"; u "02/01/2025"]).
Proof. reflexivity. Qed.

(** C3: the fetcher returns in every case, never raising; it returns
    [None] when the request, the status check or the decoding raised, and
    when the decoded body neither is a mapping with a list of strings under
    [dates] or [Dates] nor is itself a list of strings. *)
Theorem fetch_availability_dates_never_raises
    (E : env) (c : str) (ck : cookies) (w : world) :
  exists r,
    fst (fetch_availability_dates E c ck w) = Ret r
    /\ (forall e, session_get E (requests w) c ck = GetRaises e
                  \/ session_get E (requests w) c ck = StatusRaises e
                  \/ session_get E (requests w) c ck = JsonRaises e ->
         r = None)
    /\ (forall p, session_get E (requests w) c ck = Payload p ->
         (forall d k v ds, p = PDict d -> k = u "dates" \/ k = u "Dates" ->
                           d !! k = Some v -> ~ string_list v ds) ->
         (forall ds, ~ string_list p ds) ->
         r = None).
Proof.
  rewrite fetch_availability_dates_run. cbn [fst]. eexists. split; [reflexivity|].
  split.
  - intros e [-> | [-> | ->]]; reflexivity.
  - intros p -> Hkeys Hbare.
    destruct p as [| | | | |l|d]; try reflexivity.
    + unfold parse_payload. apply strs_of_None. intros ds Hds.
      apply (Hbare ds). unfold string_list. now f_equal.
    + rewrite parse_payload_dict. apply of_selected_None. intros ds Hds.
      unfold py_or, dict_get in Hds.
      destruct (d !! u "dates") as [v1|] eqn:H1.
      * destruct (truthy v1).
        -- exact (Hkeys d (u "dates") v1 ds eq_refl (or_introl eq_refl) H1 Hds).
        -- destruct (d !! u "Dates") as [v2|] eqn:H2; [|discriminate Hds].
           exact (Hkeys d (u "Dates") v2 ds eq_refl (or_intror eq_refl) H2 Hds).
      * cbn [truthy] in Hds.
        destruct (d !! u "Dates") as [v2|] eqn:H2; [|discriminate Hds].
        exact (Hkeys d (u "Dates") v2 ds eq_refl (or_intror eq_refl) H2 Hds).
Qed.

Lemma fetch_availability_dates_never_raises_witness :
  fst (fetch_availability_dates
         (sample_env true (PList []) (JsonRaises JSONDecodeError))
         (u "X1") [] world0) = Ret None
  /\ fst (fetch_availability_dates
           (sample_env true (PList []) (Payload (PDict other_key)))
           (u "X1") [] world0) = Ret None.
Proof.
  split.
  - destruct (fetch_availability_dates_never_raises
                (sample_env true (PList []) (JsonRaises JSONDecodeError))
                (u "X1") [] world0) as (r & Hr & Hexn & _).
    rewrite Hr. f_equal. apply (Hexn JSONDecodeError). right. right. reflexivity.
  - destruct (fetch_availability_dates_never_raises
                (sample_env true (PList []) (Payload (PDict other_key)))
                (u "X1") [] world0) as (r & Hr & _ & Hbody).
    rewrite Hr. f_equal. apply (Hbody (PDict other_key) eq_refl).
    + intros d k v ds Hd Hk Hv. injection Hd as <-.
      destruct Hk as [-> | ->]; vm_compute in Hv; discriminate Hv.
    + intros ds Hds. discriminate Hds.
Defined.

(** ** The classifier *)

Section Classifier.

Lemma str_in_In (x : str) (l : list str) : str_in x l = true <-> In x l.
Proof.
  unfold str_in, str_eqb. rewrite existsb_exists. split.
  - intros (y & Hy & Heq). apply bool_decide_eq_true in Heq. now subst.
  - intros H. exists x. split; [exact H | now apply bool_decide_eq_true].
Qed.

Lemma determine_availability_nonempty (today : datetime) (a : str) (ds : list str) :
  determine_availability today (Some (a :: ds))
  = if str_in (strftime_dmY today) (a :: ds) then u "available" else u "unavailable".
Proof. reflexivity. Qed.

Lemma digit_lt (n : N) : (n < 10)%N -> digit n = (48 + n)%N.
Proof. intros H. unfold digit. now rewrite N.mod_small. Qed.

Lemma year_text_four (y : N) :
  (1000 <= y)%N ->
  year_text y = [digit (y / 1000); digit (y / 100); digit (y / 10); digit y].
Proof.
  intros H. unfold year_text.
  destruct (N.ltb_spec y 10); [lia|].
  destruct (N.ltb_spec y 100); [lia|].
  destruct (N.ltb_spec y 1000); [lia|]. reflexivity.
Qed.


(** From the year 1000 on the day is written as the specification has it. *)
Lemma strftime_dmY_four (t : datetime) :
  (1000 <= year t)%N -> strftime_dmY t = strftime_dmY_spec t.
Proof.
  intros H. unfold strftime_dmY, strftime_dmY_spec.
  now rewrite year_text_four.
Qed.


End Classifier.




(** ** The enrichment loop *)

Section Loop.

Variable E : env.
Variable today : datetime.
Variable ck : cookies.

Lemma extract_context_id_truthy (s c : str) :
  extract_context_id (Some s) = Some c -> truthy (of_optstr (Some c)) = true.
Proof.
  rewrite extract_context_id_unfold. intros H.
  destruct (or_none_cases
              (if startswith (strip s) [lbrace] && endswith (strip s) [rbrace]
               then slice (strip s) 1 (-1) else strip s)) as [Hn | (r & Hr & Hne)].
  - congruence.
  - rewrite H in Hr. injection Hr as ->. destruct r; [congruence | reflexivity].
Qed.

Lemma context_id_of_truthy (d : gmap str pyval) (c : str) :
  context_id_of d = Some c -> truthy (of_optstr (Some c)) = true.
Proof.
  unfold context_id_of. destruct (d !! u "id") as [[]|]; try discriminate.
  apply extract_context_id_truthy.
Qed.

(** One turn of the loop on a dict. *)
Lemma enrich_record_dict (d : gmap str pyval) (w : world) :
  enrich_record E today ck (PDict d) w
  = match context_id_of d with
    | None => (Ret (PDict (enriched_with today d None)), w)
    | Some c => (Ret (PDict (enriched_with today d (fetched E c ck w))),
                 requested w c)
    end.
Proof.
  destruct (context_id_of d) as [c|] eqn:Hc.
  - pose proof (context_id_of_truthy d c Hc) as Ht.
    unfold enriched_with. rewrite Hc.
    unfold context_id_of in Hc.
    unfold enrich_record, py_get, py_dict, bind, ret, dict_get.
    destruct (d !! u "id") as [v|]; [|discriminate Hc].
    destruct v; try discriminate Hc.
    rewrite Hc, Ht, fetch_availability_dates_run. reflexivity.
  - unfold enriched_with. rewrite Hc. unfold context_id_of in Hc.
    unfold enrich_record, py_get, py_dict, bind, ret, dict_get.
    destruct (d !! u "id") as [v|]; [|reflexivity].
    destruct v; try reflexivity. rewrite Hc. reflexivity.
Qed.

(** A turn prints nothing, whatever the element is. *)
Lemma enrich_record_streams (cg : pyval) (w w' : world) (r : result pyval) :
  enrich_record E today ck cg w = (r, w') ->
  stdout w' = stdout w /\ stderr w' = stderr w.
Proof.
  destruct cg as [| | | | | |d];
    try (intros H; injection H as _ <-; split; reflexivity).
  rewrite enrich_record_dict.
  destruct (context_id_of d); intros H; injection H as _ <-; split; reflexivity.
Qed.

Lemma enrich_loop_streams (l : list pyval) (w w' : world) (r : result (list pyval)) :
  enrich_loop E today ck l w = (r, w') ->
  stdout w' = stdout w /\ stderr w' = stderr w.
Proof.
  revert w r w'. induction l as [|cg l IH]; intros w r w'.
  - intros H. injection H as _ <-. split; reflexivity.
  - cbn [enrich_loop]. unfold bind at 1.
    destruct (enrich_record E today ck cg w) as [[v|e] w1] eqn:H1;
      apply enrich_record_streams in H1 as [Ho He].
    + unfold bind, ret.
      destruct (enrich_loop E today ck l w1) as [[vs|e] w2] eqn:H2;
        apply IH in H2 as [Ho' He']; intros H; injection H as _ <-;
        split; congruence.
    + intros H. injection H as _ <-. split; assumption.
Qed.

Lemma omap_cons_case {A B} (f : A -> option B) (x : A) (l : list A) :
  omap f (x :: l) = match f x with Some y => y :: omap f l | None => omap f l end.
Proof. reflexivity. Qed.

(** The loop over dicts: it returns, with one record per input record in
    the input's order, each the input record with the derived fields
    attached; the requests it issues are those of the records that yield an
    identifier, in order. *)
Lemma enrich_loop_dicts (recs : list (gmap str pyval)) (w : world) :
  exists out w',
    enrich_loop E today ck (List.map PDict recs) w = (Ret (List.map PDict out), w')
    /\ requests w' = requests w ++ omap context_id_of recs
    /\ Forall2 (fun d d' =>
                  exists dates, d' = enriched_with today d dates
                                /\ (context_id_of d = None -> dates = None))
               recs out.
Proof.
  revert w. induction recs as [|d recs IH]; intros w.
  - exists [], w. cbn. rewrite app_nil_r. repeat split. constructor.
  - cbn [List.map enrich_loop]. unfold bind at 1. rewrite enrich_record_dict.
    destruct (context_id_of d) as [c|] eqn:Hc.
    + destruct (IH (requested w c)) as (out & w' & Hrun & Hreq & Hall).
      exists (enriched_with today d (fetched E c ck w) :: out), w'.
      unfold bind. rewrite Hrun. split; [reflexivity|]. split.
      * rewrite Hreq, omap_cons_case, Hc. cbn [requested requests].
        now rewrite <- app_assoc.
      * constructor; [|exact Hall]. exists (fetched E c ck w).
        split; [reflexivity | congruence].
    + destruct (IH w) as (out & w' & Hrun & Hreq & Hall).
      exists (enriched_with today d None :: out), w'.
      unfold bind. rewrite Hrun. split; [reflexivity|]. split.
      * rewrite Hreq, omap_cons_case, Hc. reflexivity.
      * constructor; [|exact Hall]. exists None. split; reflexivity.
Qed.

Lemma no_identifier_context_id (d : gmap str pyval) :
  no_identifier d -> context_id_of d = None.
Proof.
  unfold context_id_of. intros [-> | (s & -> & Hs)]; [reflexivity | exact Hs].
Qed.

Lemma non_string_id_context_id (d : gmap str pyval) (v : pyval) :
  d !! u "id" = Some v -> is_str v = false -> context_id_of d = None.
Proof.
  unfold context_id_of. intros -> Hv. destruct v; try reflexivity. discriminate Hv.
Qed.

Lemma enriched_with_unknown (d : gmap str pyval) :
  context_id_of d = None -> unknown_fields (enriched_with today d None).
Proof.
  intros Hc. unfold unknown_fields, enriched_with, attach. rewrite Hc.
  repeat split.
  - apply lookup_insert_eq.
  - rewrite lookup_insert_ne by discriminate. apply lookup_insert_eq.
  - rewrite !lookup_insert_ne by discriminate. apply lookup_insert_eq.
Qed.

Lemma enriched_with_frame (d : gmap str pyval) (dates : option (list str)) (k : str) :
  ~ In k derived_keys -> enriched_with today d dates !! k = d !! k.
Proof.
  intros Hk. unfold enriched_with, attach.
  rewrite !lookup_insert_ne; [reflexivity | | |];
    intros <-; apply Hk; unfold derived_keys; simpl; auto.
Qed.

Lemma enriched_with_has (d : gmap str pyval) (dates : option (list str)) (k : str) :
  In k derived_keys -> is_Some (enriched_with today d dates !! k).
Proof.
  unfold derived_keys, enriched_with, attach. intros [<- | [<- | [<- | []]]].
  - rewrite !lookup_insert_ne by discriminate. rewrite lookup_insert_eq. eauto.
  - rewrite lookup_insert_ne by discriminate. rewrite lookup_insert_eq. eauto.
  - rewrite lookup_insert_eq. eauto.
Qed.

(** A record without identifier, at any place of the list. *)
Lemma enrich_loop_no_identifier
    (recs : list (gmap str pyval)) (i : nat) (d : gmap str pyval) (w : world) :
  recs !! i = Some d -> context_id_of d = None ->
  exists out w',
    enrich_loop E today ck (List.map PDict recs) w = (Ret (List.map PDict out), w')
    /\ (exists d', out !! i = Some d' /\ unknown_fields d')
    /\ requests w' = requests w ++ omap context_id_of recs
    /\ forall w0, enrich_record E today ck (PDict d) w0
                  = (Ret (PDict (enriched_with today d None)), w0).
Proof.
  intros Hi Hc.
  destruct (enrich_loop_dicts recs w) as (out & w' & Hrun & Hreq & Hall).
  exists out, w'. split; [exact Hrun|]. split; [|split; [exact Hreq|]].
  - destruct (Forall2_lookup_l _ _ _ _ _ Hall Hi) as (d' & Hd' & dates & -> & Hnone).
    exists (enriched_with today d dates). split; [exact Hd'|].
    rewrite (Hnone Hc). now apply enriched_with_unknown.
  - intros w0. rewrite enrich_record_dict, Hc. reflexivity.
Qed.

End Loop.

(** C5: a record from which no identifier can be extracted comes out of the
    loop with [_availability] unknown, [_dates] and [_context_id] [None]; its
    turn of the loop leaves the world as it was, and the requests of the
    whole loop are those of the records that do yield an identifier. *)
Theorem enrich_loop_without_identifier
    (E : env) (today : datetime) (ck : cookies)
    (recs : list (gmap str pyval)) (i : nat) (d : gmap str pyval) (w : world) :
  recs !! i = Some d -> no_identifier d ->
  context_id_of d = None
  /\ exists out w',
      enrich_loop E today ck (List.map PDict recs) w = (Ret (List.map PDict out), w')
      /\ (exists d', out !! i = Some d' /\ unknown_fields d')
      /\ requests w' = requests w ++ omap context_id_of recs
      /\ forall w0, exists d',
            enrich_record E today ck (PDict d) w0 = (Ret (PDict d'), w0)
            /\ unknown_fields d'.
Proof.
  intros Hi Hno. pose proof (no_identifier_context_id d Hno) as Hc.
  split; [exact Hc|].
  destruct (enrich_loop_no_identifier E today ck recs i d w Hi Hc)
    as (out & w' & Hrun & Hout & Hreq & Hturn).
  exists out, w'. repeat split; try assumption.
  intros w0. exists (enriched_with today d None).
  split; [apply Hturn | now apply enriched_with_unknown].
Qed.

Lemma enrich_loop_without_identifier_witness :
  context_id_of record_B = None
  /\ exists out w',
      enrich_loop (sample_env true (PList []) today_body) may_day []
        (List.map PDict [record_A; record_B; record_blank]) world0
      = (Ret (List.map PDict out), w')
      /\ (exists d', out !! 1%nat = Some d' /\ unknown_fields d')
      /\ requests w'
         = requests world0 ++ omap context_id_of [record_A; record_B; record_blank]
      /\ forall w0, exists d',
            enrich_record (sample_env true (PList []) today_body) may_day []
              (PDict record_B) w0 = (Ret (PDict d'), w0)
            /\ unknown_fields d'.
Proof.
  apply (enrich_loop_without_identifier
           (sample_env true (PList []) today_body) may_day []
           [record_A; record_B; record_blank] 1 record_B world0).
  - reflexivity.
  - left. vm_compute. reflexivity.
Defined.

(** C10: a record whose [id] is present but not a string goes through the
    loop without an exception, as a record without identifier. *)
Theorem enrich_loop_non_string_id
    (E : env) (today : datetime) (ck : cookies)
    (recs : list (gmap str pyval)) (i : nat) (d : gmap str pyval) (v : pyval)
    (w : world) :
  recs !! i = Some d -> d !! u "id" = Some v -> is_str v = false ->
  (exists out w',
      enrich_loop E today ck (List.map PDict recs) w = (Ret (List.map PDict out), w')
      /\ exists d', out !! i = Some d' /\ unknown_fields d')
  /\ forall w0, exists d',
        enrich_record E today ck (PDict d) w0 = (Ret (PDict d'), w0)
        /\ unknown_fields d'.
Proof.
  intros Hi Hid Hv. pose proof (non_string_id_context_id d v Hid Hv) as Hc.
  destruct (enrich_loop_no_identifier E today ck recs i d w Hi Hc)
    as (out & w' & Hrun & Hout & Hreq & Hturn).
  split.
  - exists out, w'. split; assumption.
  - intros w0. exists (enriched_with today d None).
    split; [apply Hturn | now apply enriched_with_unknown].
Qed.

Lemma enrich_loop_non_string_id_witness :
  (exists out w',
      enrich_loop (sample_env true (PList []) today_body) may_day []
        (List.map PDict [record_num; record_A]) world0
      = (Ret (List.map PDict out), w')
      /\ exists d', out !! 0%nat = Some d' /\ unknown_fields d')
  /\ forall w0, exists d',
        enrich_record (sample_env true (PList []) today_body) may_day []
          (PDict record_num) w0 = (Ret (PDict d'), w0)
        /\ unknown_fields d'.
Proof.
  apply (enrich_loop_non_string_id
           (sample_env true (PList []) today_body) may_day []
           [record_num; record_A] 0 record_num (PInt 42) world0).
  - reflexivity.
  - vm_compute. reflexivity.
  - reflexivity.
Defined.

(** C7: the loop over a list of records returns one enriched record per
    input record, in the same order; each agrees with its input record on
    every key other than [_context_id], [_dates] and [_availability], and
    holds these three. *)
Theorem enrich_loop_frame
    (E : env) (today : datetime) (ck : cookies)
    (recs : list (gmap str pyval)) (w : world) :
  exists out w',
    enrich_loop E today ck (List.map PDict recs) w = (Ret (List.map PDict out), w')
    /\ length out = length recs
    /\ forall i d, recs !! i = Some d ->
         exists d', out !! i = Some d'
           /\ (forall k, ~ In k derived_keys -> d' !! k = d !! k)
           /\ (forall k, In k derived_keys -> is_Some (d' !! k)).
Proof.
  destruct (enrich_loop_dicts E today ck recs w) as (out & w' & Hrun & _ & Hall).
  exists out, w'. split; [exact Hrun|]. split.
  - symmetry. exact (Forall2_length _ _ _ Hall).
  - intros i d Hi.
    destruct (Forall2_lookup_l _ _ _ _ _ Hall Hi) as (d' & Hd' & dates & -> & _).
    exists (enriched_with today d dates). split; [exact Hd'|]. split.
    + intros k. apply enriched_with_frame.
    + intros k. apply enriched_with_has.
Qed.

Lemma enrich_loop_frame_witness :
  exists d',
    fst (enrich_loop (sample_env true (PList []) today_body) may_day []
           (List.map PDict [record_A; record_B]) world0)
    = Ret [PDict (enriched_with may_day record_A (Some [u "01/05/2024"]));
           PDict d']
    /\ d' !! u "title" = Some (PStr (u "Beta"))
    /\ d' !! u "id" = None.
Proof.
  destruct (enrich_loop_frame (sample_env true (PList []) today_body) may_day []
              [record_A; record_B] world0) as (out & w' & Hrun & Hlen & Hframe).
  destruct (Hframe 1%nat record_B eq_refl) as (d' & Hd' & Hsame & _).
  exists d'. split; [|split].
  - assert (Hout : List.map PDict out
                   = [PDict (enriched_with may_day record_A (Some [u "01/05/2024"]));
                      PDict d']).
    { vm_compute in Hrun. injection Hrun as Hrun _.
      destruct out as [|a [|b [|c out]]]; try discriminate Hlen.
      cbn in Hd'. injection Hd' as ->.
      cbn [List.map] in Hrun. injection Hrun as <- _.
      vm_compute. reflexivity. }
    rewrite Hrun. cbn [fst]. rewrite Hout. reflexivity.
  - rewrite (Hsame (u "title")); [reflexivity|].
    unfold derived_keys. intros [H | [H | [H | []]]]; discriminate H.
  - rewrite (Hsame (u "id")); [reflexivity|].
    unfold derived_keys. intros [H | [H | [H | []]]]; discriminate H.
Defined.

Example enrich_loop_end_to_end :
  fst (enrich_loop (sample_env true (PList []) today_body) may_day []
         (List.map PDict [record_A; record_B]) world0)
  = Ret [PDict (attach record_A (Some (u "X1")) (Some [u "01/05/2024"]) (u "available"));
         PDict (attach record_B None None (u "unknown"))].
Proof. vm_compute. reflexivity. Qed.

(** ** [main] *)

Section Main.

Variable E : env.

Lemma main_missing (w : world) :
  path_exists E = false ->
  main E w
  = (Ret 1, {| requests := requests w; stdout := stdout w;
               stderr := stderr w ++ [u "Missing file: " ++ ALL_CAMPGROUNDS_PATH E] |}).
Proof. unfold main. intros ->. reflexivity. Qed.

(** With the file in place, [main] is the pipeline behind the guard. *)
Lemma main_present (w : world) :
  path_exists E = true ->
  main E w
  = (let* campgrounds := load_campgrounds E in
     let* session := lift (cached_session E) in
     let* ck := lift (get_root E) in
     let* enriched := enrich_loop E (now E) ck campgrounds in
     run lift (render E enriched) in
     run print (u "Wrote map to " ++ OUTPUT_MAP_PATH) in
     ret 0) w.
Proof. unfold main. intros ->. reflexivity. Qed.

Lemma load_campgrounds_streams (w w' : world) (r : result (list pyval)) :
  load_campgrounds E w = (r, w') -> w' = w.
Proof.
  unfold load_campgrounds, bind, lift.
  destruct (json_load E) as [[]|e]; intros H; injection H as _ <-; reflexivity.
Qed.

(** A run that comes back with an exit code past the guard printed the
    closing line and nothing on the error stream, and the code is 0. *)
Lemma main_present_returns (w w' : world) (code : Z) :
  path_exists E = true -> main E w = (Ret code, w') ->
  code = 0
  /\ stdout w' = stdout w ++ [u "Wrote map to " ++ OUTPUT_MAP_PATH]
  /\ stderr w' = stderr w.
Proof.
  intros Hp. rewrite (main_present w Hp). unfold bind at 1.
  destruct (load_campgrounds E w) as [[l|e] w1] eqn:H1; [|discriminate].
  apply load_campgrounds_streams in H1 as ->.
  unfold bind at 1, lift at 1.
  destruct (cached_session E) as [[]|e]; [|discriminate].
  unfold bind at 1, lift at 1.
  destruct (get_root E) as [ck|e]; [|discriminate].
  unfold bind at 1.
  destruct (enrich_loop E (now E) ck l w) as [[out|e] w2] eqn:H2; [|discriminate].
  apply enrich_loop_streams in H2 as [Ho He].
  unfold bind at 1, lift at 1.
  destruct (render E out) as [[]|e]; [|discriminate].
  unfold bind, print, ret. intros H. injection H as <- <-.
  cbn [stdout stderr]. rewrite Ho, He. repeat split.
Qed.

Lemma main_success (w : world) (recs : list (gmap str pyval)) (ck : cookies) :
  path_exists E = true ->
  json_load E = Ret (PList (List.map PDict recs)) ->
  cached_session E = Ret tt ->
  get_root E = Ret ck ->
  (forall out w', enrich_loop E (now E) ck (List.map PDict recs) w = (Ret out, w') ->
                  render E out = Ret tt) ->
  fst (main E w) = Ret 0.
Proof.
  intros Hp Hload Hsess Hck Hrender. rewrite (main_present w Hp).
  unfold load_campgrounds, bind, lift. rewrite Hload, Hsess, Hck.
  cbv beta iota. unfold ret at 1. cbv beta iota.
  destruct (enrich_loop_dicts E (now E) ck recs w) as (out & w' & Hrun & _).
  rewrite Hrun, (Hrender _ _ Hrun). reflexivity.
Qed.

End Main.

(** C9: with the input file missing, [main] returns 1 after printing one
    line on the error stream and nothing else; with the file in place, a
    run that returns at all returns 0, and a run in which the file holds a
    list of records and neither the session, the cookie request nor the
    rendering raises does return 0. *)
Theorem main_exit_code (E : env) (w : world) :
  (path_exists E = false ->
   main E w
   = (Ret 1, {| requests := requests w; stdout := stdout w;
                stderr := stderr w
                          ++ [u "Missing file: " ++ ALL_CAMPGROUNDS_PATH E] |}))
  /\ (path_exists E = true ->
      forall code w', main E w = (Ret code, w') ->
        code = 0
        /\ stdout w' = stdout w ++ [u "Wrote map to index.html"]
        /\ stderr w' = stderr w)
  /\ (path_exists E = true ->
      forall recs ck,
        json_load E = Ret (PList (List.map PDict recs)) ->
        cached_session E = Ret tt ->
        get_root E = Ret ck ->
        (forall out w',
            enrich_loop E (now E) ck (List.map PDict recs) w = (Ret out, w') ->
            render E out = Ret tt) ->
        fst (main E w) = Ret 0).
Proof.
  split; [|split].
  - apply main_missing.
  - intros Hp code w'. apply main_present_returns. exact Hp.
  - intros Hp recs ck. apply main_success. exact Hp.
Qed.

Lemma main_exit_code_witness :
  main (sample_env false (PList []) today_body) world0
  = (Ret 1, {| requests := []; stdout := [];
               stderr := [u "Missing file: /srv/nsw-campsites/all_campground.json"] |})
  /\ fst (main (sample_env true (PList [PDict record_A; PDict record_B]) today_body)
            world0) = Ret 0.
Proof.
  split.
  - exact (proj1 (main_exit_code (sample_env false (PList []) today_body) world0)
             eq_refl).
  - apply (proj2 (proj2 (main_exit_code
                           (sample_env true (PList [PDict record_A; PDict record_B])
                              today_body) world0))
             eq_refl [record_A; record_B] []); reflexivity.
Defined.

(** * Further properties *)

(** ** The identifier extractor, continued *)

Section ExtractorMore.

Lemma lstrip_spaces (ws s : str) :
  forallb isspace ws = true -> lstrip (ws ++ s) = lstrip s.
Proof.
  induction ws as [|c ws IH]; simpl; [reflexivity|].
  intros H. apply andb_true_iff in H as [Hc Hws]. rewrite Hc. now apply IH.
Qed.

Lemma forallb_rev {A} (f : A -> bool) (l : list A) :
  forallb f l = true -> forallb f (rev l) = true.
Proof.
  rewrite !forallb_forall. intros H x Hx. apply H. now apply in_rev.
Qed.

Lemma rstrip_spaces (s ws : str) :
  forallb isspace ws = true -> rstrip (s ++ ws) = rstrip s.
Proof.
  intros H. unfold rstrip. rewrite rev_app_distr.
  rewrite lstrip_spaces by now apply forallb_rev. reflexivity.
Qed.

Lemma lstrip_nil_spaces (ws : str) : forallb isspace ws = true -> lstrip ws = [].
Proof.
  intros H. rewrite <- (app_nil_r ws). now rewrite lstrip_spaces.
Qed.

(** Whitespace around a trimmed string is what [strip] removes. *)
Lemma strip_pad (ws1 t ws2 : str) :
  forallb isspace ws1 = true -> forallb isspace ws2 = true ->
  lead_space t = false -> trail_space t = false ->
  strip (ws1 ++ t ++ ws2) = t.
Proof.
  intros H1 H2 Hl Ht. unfold strip. rewrite lstrip_spaces by exact H1.
  destruct t as [|c r].
  - cbn [app]. now rewrite lstrip_nil_spaces.
  - assert (Hls : lstrip ((c :: r) ++ ws2) = (c :: r) ++ ws2).
    { cbn [app lstrip]. cbn [lead_space] in Hl. now rewrite Hl. }
    rewrite Hls, rstrip_spaces by exact H2. now apply rstrip_id.
Qed.

Lemma strip_padding (ws1 s ws2 : str) :
  forallb isspace ws1 = true -> forallb isspace ws2 = true ->
  strip (ws1 ++ s ++ ws2) = strip s.
Proof.
  intros H1 H2.
  destruct (strip_split s) as (a & b & Hs & Ha & Hb & Hl & Ht).
  rewrite Hs at 1.
  replace (ws1 ++ (a ++ strip s ++ b) ++ ws2)
    with ((ws1 ++ a) ++ strip s ++ (b ++ ws2))
    by (rewrite <- !app_assoc; reflexivity).
  apply strip_pad; try assumption; rewrite forallb_app; now apply andb_true_iff.
Qed.

Lemma brace_not_space : isspace lbrace = false /\ isspace rbrace = false.
Proof. split; reflexivity. Qed.

Lemma braced_trimmed (m : str) :
  lead_space (lbrace :: m ++ [rbrace]) = false
  /\ trail_space (lbrace :: m ++ [rbrace]) = false.
Proof.
  split; [reflexivity|]. unfold trail_space.
  change (lbrace :: m ++ [rbrace]) with ([lbrace] ++ m ++ [rbrace]).
  rewrite !rev_app_distr. reflexivity.
Qed.

Lemma slice_inner_infix {A} (t : list A) :
  exists pre post, t = pre ++ slice t 1 (-1) ++ post.
Proof.
  unfold slice.
  set (lo := Z.to_nat (slice_bound (Z.of_nat (length t)) 1)).
  set (n := Z.to_nat (slice_bound (Z.of_nat (length t)) (-1)
                      - slice_bound (Z.of_nat (length t)) 1)).
  exists (take lo t), (drop n (drop lo t)).
  now rewrite take_drop, take_drop.
Qed.

End ExtractorMore.

(** X1: whitespace before and after the raw identifier never changes what
    the extractor returns. *)
Theorem extract_context_id_padding (ws1 s ws2 : str) :
  forallb isspace ws1 = true -> forallb isspace ws2 = true ->
  extract_context_id (Some (ws1 ++ s ++ ws2)) = extract_context_id (Some s).
Proof.
  intros H1 H2. rewrite !extract_context_id_unfold.
  now rewrite (strip_padding ws1 s ws2 H1 H2).
Qed.

Lemma extract_context_id_padding_witness :
  extract_context_id (Some (u " 	" ++ u "{ABC 1}" ++ u "  "))
  = extract_context_id (Some (u "{ABC 1}")).
Proof.
  apply (extract_context_id_padding (u " 	") (u "{ABC 1}") (u "  ")); reflexivity.
Defined.

(** X2: a raw identifier made of whitespace only, or of an empty brace pair
    with whitespace around it, gives [None]. *)
Theorem extract_context_id_blank :
  (forall s : str, forallb isspace s = true -> extract_context_id (Some s) = None)
  /\ (forall ws1 ws2 : str,
        forallb isspace ws1 = true -> forallb isspace ws2 = true ->
        extract_context_id (Some (ws1 ++ [lbrace; rbrace] ++ ws2)) = None).
Proof.
  split.
  - intros s Hs. rewrite extract_context_id_plain.
    + replace (strip s) with (@nil N); [reflexivity|].
      symmetry. rewrite <- (app_nil_r s). apply (strip_pad s [] []); auto.
    + replace (strip s) with (@nil N); [reflexivity|].
      symmetry. rewrite <- (app_nil_r s). apply (strip_pad s [] []); auto.
  - intros ws1 ws2 H1 H2.
    apply (extract_context_id_braced _ []).
    apply (strip_pad ws1 [lbrace; rbrace] ws2); auto.
Qed.

Lemma extract_context_id_blank_witness :
  extract_context_id (Some [32; 9; 160]%N) = None
  /\ extract_context_id (Some ([32]%N ++ [lbrace; rbrace] ++ [10]%N)) = None.
Proof.
  split.
  - apply (proj1 extract_context_id_blank). reflexivity.
  - apply (proj2 extract_context_id_blank); reflexivity.
Defined.

(** X3: what stands between the outer braces is returned as it is, whatever
    it holds: a string that is itself in braces keeps them, and whitespace
    between the braces comes back as the identifier. *)
Theorem extract_context_id_inner_verbatim (ws1 m ws2 : str) :
  forallb isspace ws1 = true -> forallb isspace ws2 = true -> m <> [] ->
  extract_context_id (Some (ws1 ++ (lbrace :: m ++ [rbrace]) ++ ws2)) = Some m.
Proof.
  intros H1 H2 Hm.
  rewrite (extract_context_id_braced _ m).
  - destruct m; [congruence | reflexivity].
  - destruct (braced_trimmed m) as [Hl Ht]. now apply strip_pad.
Qed.

Lemma extract_context_id_inner_verbatim_witness :
  extract_context_id (Some (u " " ++ (lbrace :: u "{X1}" ++ [rbrace]) ++ []))
  = Some (u "{X1}")
  /\ extract_context_id (Some ([] ++ (lbrace :: u "  " ++ [rbrace]) ++ []))
     = Some (u "  ").
Proof.
  split.
  - apply (extract_context_id_inner_verbatim (u " ") (u "{X1}") []);
      [reflexivity | reflexivity | discriminate].
  - apply (extract_context_id_inner_verbatim [] (u "  ") []);
      [reflexivity | reflexivity | discriminate].
Defined.

(** X4: the identifier returned is a piece of the raw string: the extractor
    only cuts characters off both ends. *)
Theorem extract_context_id_infix (s r : str) :
  extract_context_id (Some s) = Some r ->
  exists pre post, s = pre ++ r ++ post.
Proof.
  rewrite extract_context_id_unfold. intros H.
  destruct (strip_split s) as (a & b & Hs & _).
  destruct (startswith (strip s) [lbrace] && endswith (strip s) [rbrace]).
  - destruct (slice_inner_infix (strip s)) as (pre & post & Hin).
    assert (Hr : slice (strip s) 1 (-1) = r).
    { destruct (slice (strip s) 1 (-1)); [discriminate H | now injection H]. }
    rewrite Hr in Hin. exists (a ++ pre), (post ++ b).
    rewrite Hs at 1. rewrite Hin at 1. now rewrite <- !app_assoc.
  - assert (Hr : strip s = r).
    { destruct (strip s); [discriminate H | now injection H]. }
    rewrite Hr in Hs. eauto.
Qed.

Lemma extract_context_id_infix_witness :
  exists pre post, u "  {ABC123} " = pre ++ u "ABC123" ++ post.
Proof.
  apply (extract_context_id_infix (u "  {ABC123} ") (u "ABC123")). reflexivity.
Defined.

(** ** The availability fetcher, continued *)

(** X5: a body that is itself a list of strings is returned as it is, the
    empty list included. *)
Theorem fetch_availability_dates_bare_list_returned
    (E : env) (c : str) (ck : cookies) (w : world) (ds : list str) :
  session_get E (requests w) c ck = Payload (PList (List.map PStr ds)) ->
  fst (fetch_availability_dates E c ck w) = Ret (Some ds).
Proof.
  intros Hp. rewrite fetch_availability_dates_run, Hp. cbn [fst].
  unfold parse_payload. now rewrite strs_of_map.
Qed.

Lemma fetch_availability_dates_bare_list_returned_witness :
  fst (fetch_availability_dates
         (sample_env true (PList []) (Payload (PList [])))
         (u "X1") [] world0) = Ret (Some []).
Proof.
  apply (fetch_availability_dates_bare_list_returned
           (sample_env true (PList []) (Payload (PList [])))
           (u "X1") [] world0 []).
  reflexivity.
Defined.

(** X6: a list the fetcher returns was in the body: the body is that list of
    strings, or a mapping that holds it under [dates] or [Dates]. *)
Theorem fetch_availability_dates_sound
    (E : env) (c : str) (ck : cookies) (w : world) (ds : list str) :
  fst (fetch_availability_dates E c ck w) = Ret (Some ds) ->
  exists p,
    session_get E (requests w) c ck = Payload p
    /\ (string_list p ds
        \/ exists d k v,
             p = PDict d /\ (k = u "dates" \/ k = u "Dates")
             /\ d !! k = Some v /\ string_list v ds).
Proof.
  rewrite fetch_availability_dates_run. cbn [fst].
  destruct (session_get E (requests w) c ck) as [e|e|e|p]; try discriminate.
  intros H. injection H as H. exists p. split; [reflexivity|].
  destruct p as [| | | | |l|d]; try discriminate H.
  - left. unfold parse_payload in H. apply strs_of_Some in H.
    unfold string_list. now f_equal.
  - right. rewrite parse_payload_dict in H. apply of_selected_Some in H.
    unfold py_or, dict_get in H. exists d.
    destruct (d !! u "dates") as [v1|] eqn:H1.
    + destruct (truthy v1).
      * exists (u "dates"), v1. auto.
      * destruct (d !! u "Dates") as [v2|] eqn:H2; [|discriminate H].
        exists (u "Dates"), v2. auto.
    + cbn [truthy] in H.
      destruct (d !! u "Dates") as [v2|] eqn:H2; [|discriminate H].
      exists (u "Dates"), v2. auto.
Qed.

Lemma fetch_availability_dates_sound_witness :
  exists p,
    session_get (sample_env true (PList []) (Payload (PDict both_keys)))
      (requests world0) (u "X1") [] = Payload p
    /\ (string_list p [u "01/01/2025"]
        \/ exists d k v,
             p = PDict d /\ (k = u "dates" \/ k = u "Dates")
             /\ d !! k = Some v /\ string_list v [u "01/01/2025"]).
Proof.
  apply (fetch_availability_dates_sound
           (sample_env true (PList []) (Payload (PDict both_keys)))
           (u "X1") [] world0 [u "01/01/2025"]).
  reflexivity.
Defined.

(** ** The classifier, continued *)

Section ClassifierMore.

Lemma strftime_dmY_length (t : datetime) :
  (1000 <= year t)%N -> length (strftime_dmY t) = 10%nat.
Proof. intros H. now rewrite (strftime_dmY_four t H). Qed.

Lemma digit_inj (a b : N) : digit a = digit b -> (a mod 10 = b mod 10)%N.
Proof. unfold digit. lia. Qed.

Lemma two_digits (a b : N) :
  (a < 100)%N -> (b < 100)%N ->
  ((a / 10) mod 10 = (b / 10) mod 10)%N -> (a mod 10 = b mod 10)%N -> a = b.
Proof.
  intros Ha Hb H1 H0.
  pose proof (N.div_mod a 10). pose proof (N.div_mod b 10).
  assert (a / 10 < 10)%N by (apply N.Div0.div_lt_upper_bound; lia).
  assert (b / 10 < 10)%N by (apply N.Div0.div_lt_upper_bound; lia).
  rewrite !N.mod_small in H1 by assumption. lia.
Qed.

Lemma four_digits (a b : N) :
  (a < 10000)%N -> (b < 10000)%N ->
  ((a / 1000) mod 10 = (b / 1000) mod 10)%N ->
  ((a / 100) mod 10 = (b / 100) mod 10)%N ->
  ((a / 10) mod 10 = (b / 10) mod 10)%N -> (a mod 10 = b mod 10)%N -> a = b.
Proof.
  intros Ha Hb H3 H2 H1 H0.
  pose proof (N.div_mod a 10). pose proof (N.div_mod b 10).
  pose proof (N.div_mod (a / 10) 10). pose proof (N.div_mod (b / 10) 10).
  pose proof (N.div_mod (a / 100) 10). pose proof (N.div_mod (b / 100) 10).
  assert (Ea : (a / 100 = a / 10 / 10)%N) by (rewrite N.Div0.div_div; reflexivity).
  assert (Eb : (b / 100 = b / 10 / 10)%N) by (rewrite N.Div0.div_div; reflexivity).
  assert (Ea' : (a / 1000 = a / 100 / 10)%N) by (rewrite N.Div0.div_div; reflexivity).
  assert (Eb' : (b / 1000 = b / 100 / 10)%N) by (rewrite N.Div0.div_div; reflexivity).
  assert (a / 1000 < 10)%N by (apply N.Div0.div_lt_upper_bound; lia).
  assert (b / 1000 < 10)%N by (apply N.Div0.div_lt_upper_bound; lia).
  rewrite !(N.mod_small (_ / 1000)) in H3 by assumption. lia.
Qed.

Lemma strftime_dmY_inj (t t' : datetime) :
  valid_datetime t -> valid_datetime t' ->
  (1000 <= year t)%N -> (1000 <= year t')%N ->
  strftime_dmY t = strftime_dmY t' -> t = t'.
Proof.
  intros (Hy & Hm & Hd) (Hy' & Hm' & Hd') H4 H4' H.
  rewrite (strftime_dmY_four t H4), (strftime_dmY_four t' H4') in H.
  unfold strftime_dmY_spec in H.
  injection H as Hd1 Hd0 Hm1 Hm0 Hy3 Hy2 Hy1 Hy0.
  apply digit_inj in Hd1, Hd0, Hm1, Hm0, Hy3, Hy2, Hy1, Hy0.
  destruct t as [y m d], t' as [y' m' d']. cbn [year month day] in *.
  f_equal.
  - apply four_digits; assumption || lia.
  - apply two_digits; assumption || lia.
  - apply two_digits; assumption || lia.
Qed.

Lemma status_distinct :
  u "available" <> u "unavailable" /\ u "available" <> u "unknown"
  /\ u "unavailable" <> u "unknown".
Proof. repeat split; discriminate. Qed.

Lemma determine_availability_available (today : datetime) (dates : option (list str)) :
  determine_availability today dates = u "available"
  <-> exists ds, dates = Some ds /\ In (strftime_dmY today) ds.
Proof.
  destruct status_distinct as (Hau & Hak & Huk).
  destruct dates as [[|a ds]|].
  - split; [intros H; vm_compute in H; discriminate H|].
    intros (ds & Hds & Hin). injection Hds as <-. destruct Hin.
  - rewrite determine_availability_nonempty.
    destruct (str_in (strftime_dmY today) (a :: ds)) eqn:Hin.
    + apply str_in_In in Hin. split; eauto.
    + split; [intros H; symmetry in H; destruct (Hau H)|].
      intros (ds' & Hds & Hin'). injection Hds as <-.
      apply str_in_In in Hin'. congruence.
  - split; [intros H; vm_compute in H; discriminate H|].
    intros (ds & Hds & _). discriminate Hds.
Qed.

End ClassifierMore.

(** X8: the classifier returns one of the three statuses its docstring
    names, and each of them is a key of the colour table of [create_map]. *)
Theorem determine_availability_status (today : datetime) (dates : option (list str)) :
  (determine_availability today dates = u "available"
   \/ determine_availability today dates = u "unavailable"
   \/ determine_availability today dates = u "unknown")
  /\ is_Some (color_table !! determine_availability today dates).
Proof.
  assert (H : determine_availability today dates = u "available"
              \/ determine_availability today dates = u "unavailable"
              \/ determine_availability today dates = u "unknown").
  { destruct dates as [[|a ds]|]; [right; right; reflexivity | | right; right; reflexivity].
    rewrite determine_availability_nonempty.
    destruct (str_in _ _); [left | right; left]; reflexivity. }
  split; [exact H|].
  destruct H as [-> | [-> | ->]]; vm_compute; eauto.
Qed.

(** X9: only which strings occur in the list of dates matters to the
    classifier, not their order and not how often they occur. *)
Theorem determine_availability_same_elements
    (today : datetime) (ds ds' : list str) :
  (forall x, In x ds <-> In x ds') ->
  determine_availability today (Some ds) = determine_availability today (Some ds').
Proof.
  intros Hsame.
  destruct ds as [|a ds], ds' as [|a' ds'].
  - reflexivity.
  - destruct (proj2 (Hsame a') (or_introl eq_refl)).
  - destruct (proj1 (Hsame a) (or_introl eq_refl)).
  - rewrite !determine_availability_nonempty.
    destruct (str_in (strftime_dmY today) (a :: ds)) eqn:H1;
      destruct (str_in (strftime_dmY today) (a' :: ds')) eqn:H2; try reflexivity.
    + apply str_in_In, Hsame, str_in_In in H1. congruence.
    + apply str_in_In, Hsame, str_in_In in H2. congruence.
Qed.

Lemma determine_availability_same_elements_witness :
  determine_availability may_day (Some [u "02/05/2024"; u "01/05/2024"; u "02/05/2024"])
  = determine_availability may_day (Some [u "01/05/2024"; u "02/05/2024"]).
Proof.
  apply (determine_availability_same_elements may_day
           [u "02/05/2024"; u "01/05/2024"; u "02/05/2024"]
           [u "01/05/2024"; u "02/05/2024"]).
  intros x. cbn [In]. tauto.
Defined.

(** X10: the ten characters written for a day tell the day: two dates with
    a year of four digits are written alike only if they are the same day,
    so a list that holds the one string written for a day makes exactly that
    day available. *)
Theorem strftime_dmY_identifies_day (t t' : datetime) :
  valid_datetime t -> valid_datetime t' ->
  (1000 <= year t)%N -> (1000 <= year t')%N ->
  length (strftime_dmY t) = 10%nat
  /\ (strftime_dmY t = strftime_dmY t' <-> t = t')
  /\ (determine_availability t (Some [strftime_dmY t']) = u "available" <-> t = t').
Proof.
  intros Hv Hv' H4 H4'. split; [now apply strftime_dmY_length|].
  assert (Hinj : strftime_dmY t = strftime_dmY t' <-> t = t').
  { split; [now apply strftime_dmY_inj | now intros ->]. }
  split; [exact Hinj|].
  rewrite determine_availability_available. rewrite <- Hinj. split.
  - intros (ds & Hds & Hin). injection Hds as <-.
    destruct Hin as [H | []]. now symmetry.
  - intros H. exists [strftime_dmY t']. split; [reflexivity | left; now symmetry].
Qed.

Lemma strftime_dmY_identifies_day_witness :
  length (strftime_dmY may_day) = 10%nat
  /\ (strftime_dmY may_day = strftime_dmY {| year := 2024; month := 1; day := 5 |}
      <-> may_day = {| year := 2024; month := 1; day := 5 |})
  /\ (determine_availability may_day
        (Some [strftime_dmY {| year := 2024; month := 1; day := 5 |}])
      = u "available"
      <-> may_day = {| year := 2024; month := 1; day := 5 |}).
Proof.
  apply (strftime_dmY_identifies_day may_day {| year := 2024; month := 1; day := 5 |});
    unfold valid_datetime; cbn [year month day may_day]; lia.
Defined.

(** ** The enrichment loop, continued *)

Section LoopMore.

Variable E : env.
Variable today : datetime.
Variable ck : cookies.

Lemma fetched_fetch (c : str) (w : world) :
  fetch_availability_dates E c ck w = (Ret (fetched E c ck w), requested w c).
Proof. apply fetch_availability_dates_run. Qed.

Lemma context_id_of_Some (d : gmap str pyval) (c : str) :
  context_id_of d = Some c
  <-> exists s, d !! u "id" = Some (PStr s) /\ extract_context_id (Some s) = Some c.
Proof.
  unfold context_id_of. split.
  - destruct (d !! u "id") as [[]|]; try discriminate. eauto.
  - intros (s & -> & Hs). exact Hs.
Qed.

Lemma context_id_of_nonempty (d : gmap str pyval) (c : str) :
  context_id_of d = Some c -> c <> [].
Proof.
  intros H. apply context_id_of_truthy in H. destruct c; [discriminate H | discriminate].
Qed.

Lemma enriched_with_fields (d : gmap str pyval) (dates : option (list str)) :
  enriched_with today d dates !! u "_context_id" = Some (of_optstr (context_id_of d))
  /\ enriched_with today d dates !! u "_dates" = Some (of_dates dates)
  /\ enriched_with today d dates !! u "_availability"
     = Some (PStr (determine_availability today dates)).
Proof.
  unfold enriched_with, attach. repeat split.
  - rewrite !lookup_insert_ne by discriminate. apply lookup_insert_eq.
  - rewrite lookup_insert_ne by discriminate. apply lookup_insert_eq.
  - apply lookup_insert_eq.
Qed.

(** The loop over dicts, with the world each record's request was made in. *)
Lemma enrich_loop_dicts_fetched (recs : list (gmap str pyval)) (w : world) :
  exists out w',
    enrich_loop E today ck (List.map PDict recs) w = (Ret (List.map PDict out), w')
    /\ Forall2 (fun d d' =>
                  match context_id_of d with
                  | None => d' = enriched_with today d None
                  | Some c => exists wi, d' = enriched_with today d (fetched E c ck wi)
                  end)
               recs out.
Proof.
  revert w. induction recs as [|d recs IH]; intros w.
  - exists [], w. split; [reflexivity | constructor].
  - cbn [List.map enrich_loop]. unfold bind at 1. rewrite enrich_record_dict.
    destruct (context_id_of d) as [c|] eqn:Hc.
    + destruct (IH (requested w c)) as (out & w' & Hrun & Hall).
      exists (enriched_with today d (fetched E c ck w) :: out), w'.
      unfold bind. rewrite Hrun. split; [reflexivity|].
      constructor; [|exact Hall]. rewrite Hc. eauto.
    + destruct (IH w) as (out & w' & Hrun & Hall).
      exists (enriched_with today d None :: out), w'.
      unfold bind. rewrite Hrun. split; [reflexivity|].
      constructor; [|exact Hall]. now rewrite Hc.
Qed.

Lemma fetched_same_calls (c : str) (w1 w2 : world) :
  requests w1 = requests w2 -> fetched E c ck w1 = fetched E c ck w2.
Proof. unfold fetched. now intros ->. Qed.

(** Each record of the output, with the world its own turn started in. *)
Lemma enrich_loop_dicts_at (recs : list (gmap str pyval)) :
  forall (w : world) (out : list pyval) (w' : world),
    enrich_loop E today ck (List.map PDict recs) w = (Ret out, w') ->
    forall i d, recs !! i = Some d ->
      out !! i
      = Some (PDict (enriched_with today d
                       match context_id_of d with
                       | Some c => fetched E c ck (world_before w recs i)
                       | None => None
                       end)).
Proof.
  induction recs as [|d0 recs IH]; intros w out w' Hrun i d Hi; [discriminate Hi|].
  cbn [List.map enrich_loop] in Hrun. unfold bind at 1 in Hrun.
  rewrite enrich_record_dict in Hrun.
  assert (Hstep : exists w1 dates0 outr w2,
             enrich_loop E today ck (List.map PDict recs) w1 = (Ret outr, w2)
             /\ out = PDict (enriched_with today d0 dates0) :: outr
             /\ dates0 = match context_id_of d0 with
                         | Some c => fetched E c ck w
                         | None => None
                         end
             /\ requests w1
                = requests w ++ match context_id_of d0 with
                                | Some c => [c]
                                | None => []
                                end).
  { destruct (context_id_of d0) as [c0|].
    - unfold bind, ret in Hrun.
      destruct (enrich_loop E today ck (List.map PDict recs) (requested w c0))
        as [[outr|e] w2] eqn:Hr; [|discriminate Hrun].
      injection Hrun as <- _. exists (requested w c0), (fetched E c0 ck w), outr, w2.
      auto.
    - unfold bind, ret in Hrun.
      destruct (enrich_loop E today ck (List.map PDict recs) w)
        as [[outr|e] w2] eqn:Hr; [|discriminate Hrun].
      injection Hrun as <- _. exists w, None, outr, w2.
      rewrite app_nil_r. auto. }
  destruct Hstep as (w1 & dates0 & outr & w2 & Hr & -> & -> & Hreq).
  destruct i as [|j].
  - cbn in Hi. injection Hi as ->. cbn [lookup list_lookup]. do 3 f_equal.
    destruct (context_id_of d) as [c|]; [|reflexivity].
    apply fetched_same_calls. cbn. now rewrite app_nil_r.
  - refine (eq_trans (IH w1 outr w2 Hr j d Hi) _).
    do 3 f_equal. destruct (context_id_of d) as [c|]; [|reflexivity].
    apply fetched_same_calls. unfold world_before. cbn [requests take].
    rewrite Hreq, omap_cons_case, <- app_assoc.
    destruct (context_id_of d0); reflexivity.
Qed.

(** The loop stops at the first element that is no dict. *)
Lemma enrich_loop_stops (pre : list (gmap str pyval)) (v : pyval) (rest : list pyval)
    (w : world) :
  is_dict v = false ->
  exists w',
    enrich_loop E today ck (List.map PDict pre ++ v :: rest) w = (Raise AttributeError, w')
    /\ requests w' = requests w ++ omap context_id_of pre
    /\ stdout w' = stdout w /\ stderr w' = stderr w.
Proof.
  intros Hv. revert w. induction pre as [|d pre IH]; intros w.
  - exists w. cbn [List.map app enrich_loop]. unfold bind at 1.
    split; [|cbn; rewrite app_nil_r; auto].
    destruct v; try reflexivity. discriminate Hv.
  - cbn [List.map app enrich_loop]. unfold bind at 1. rewrite enrich_record_dict.
    rewrite omap_cons_case.
    destruct (context_id_of d) as [c|].
    + destruct (IH (requested w c)) as (w' & Hrun & Hreq & Ho & He).
      exists w'. unfold bind. rewrite Hrun. split; [reflexivity|].
      rewrite Hreq. cbn [requested requests]. rewrite <- app_assoc. auto.
    + destruct (IH w) as (w' & Hrun & Hreq & Ho & He).
      exists w'. unfold bind. rewrite Hrun. auto.
Qed.

End LoopMore.

(** X11: the turn of a record whose [id] yields an identifier is one call
    of the fetcher with that identifier, which is not empty; the record
    comes out with the identifier, the fetcher's result and the status the
    classifier gives that result, whatever it held under the three keys
    before. *)
Theorem enrich_record_with_identifier
    (E : env) (today : datetime) (ck : cookies)
    (d : gmap str pyval) (s c : str) (w : world) :
  d !! u "id" = Some (PStr s) -> extract_context_id (Some s) = Some c ->
  exists dates w' d',
    fetch_availability_dates E c ck w = (Ret dates, w')
    /\ enrich_record E today ck (PDict d) w = (Ret (PDict d'), w')
    /\ requests w' = requests w ++ [c] /\ c <> []
    /\ d' !! u "_context_id" = Some (PStr c)
    /\ d' !! u "_dates" = Some (of_dates dates)
    /\ d' !! u "_availability" = Some (PStr (determine_availability today dates)).
Proof.
  intros Hid Hs.
  assert (Hc : context_id_of d = Some c) by (apply context_id_of_Some; eauto).
  exists (fetched E c ck w), (requested w c), (enriched_with today d (fetched E c ck w)).
  destruct (enriched_with_fields today d (fetched E c ck w)) as (H1 & H2 & H3).
  rewrite Hc in H1.
  split; [apply fetched_fetch|]. split; [rewrite enrich_record_dict, Hc; reflexivity|].
  split; [reflexivity|]. split; [exact (context_id_of_nonempty d c Hc)|].
  auto.
Qed.

Lemma enrich_record_with_identifier_witness :
  exists dates w' d',
    fetch_availability_dates (sample_env true (PList []) today_body) (u "X1") [] world0
    = (Ret dates, w')
    /\ enrich_record (sample_env true (PList []) today_body) may_day []
         (PDict record_A) world0 = (Ret (PDict d'), w')
    /\ requests w' = requests world0 ++ [u "X1"] /\ u "X1" <> []
    /\ d' !! u "_context_id" = Some (PStr (u "X1"))
    /\ d' !! u "_dates" = Some (of_dates dates)
    /\ d' !! u "_availability" = Some (PStr (determine_availability may_day dates)).
Proof.
  apply (enrich_record_with_identifier
           (sample_env true (PList []) today_body) may_day []
           record_A (u "{X1}") (u "X1") world0).
  - vm_compute. reflexivity.
  - reflexivity.
Defined.

(** X12: when no request brings usable dates (each one raises, or its body
    has no list of strings where the fetcher looks), the loop still returns
    one record per input record, every one with [_availability] unknown and
    [_dates] [None]. *)
Theorem enrich_loop_outage
    (E : env) (today : datetime) (ck : cookies)
    (recs : list (gmap str pyval)) (w : world) :
  (forall hist c p, session_get E hist c ck = Payload p -> parse_payload p = None) ->
  exists out w',
    enrich_loop E today ck (List.map PDict recs) w = (Ret (List.map PDict out), w')
    /\ length out = length recs
    /\ Forall (fun d' => d' !! u "_availability" = Some (PStr (u "unknown"))
                         /\ d' !! u "_dates" = Some PNone) out.
Proof.
  intros Hout.
  assert (Hnone : forall c wi, fetched E c ck wi = None).
  { intros c wi. unfold fetched.
    destruct (session_get E (requests wi) c ck) eqn:Hg; try reflexivity.
    exact (Hout _ _ _ Hg). }
  destruct (enrich_loop_dicts_fetched E today ck recs w) as (out & w' & Hrun & Hall).
  exists out, w'. split; [exact Hrun|]. split.
  - symmetry. exact (Forall2_length _ _ _ Hall).
  - clear Hrun. induction Hall as [|d d' recs out Hd Hall IH]; constructor; [|exact IH].
    assert (Hd' : d' = enriched_with today d None).
    { destruct (context_id_of d) as [c|]; [|exact Hd].
      destruct Hd as (wi & ->). now rewrite Hnone. }
    subst d'. destruct (enriched_with_fields today d None) as (_ & H2 & H3).
    split; [exact H3 | exact H2].
Qed.

Lemma enrich_loop_outage_witness :
  exists out w',
    enrich_loop (sample_env true (PList []) (GetRaises ConnectionError)) may_day []
      (List.map PDict [record_A; record_B]) world0 = (Ret (List.map PDict out), w')
    /\ length out = length [record_A; record_B]
    /\ Forall (fun d' => d' !! u "_availability" = Some (PStr (u "unknown"))
                         /\ d' !! u "_dates" = Some PNone) out.
Proof.
  apply (enrich_loop_outage
           (sample_env true (PList []) (GetRaises ConnectionError)) may_day []
           [record_A; record_B] world0).
  intros hist c p H. discriminate H.
Defined.

(** X13: a record comes out of the loop as available only if its [id]
    yielded an identifier and the fetcher, called with that identifier in the
    record's own turn, that is after the calls of the records before it,
    returned a list that holds the day as written by [strftime]; that list is
    what the record has under [_dates]. *)
Theorem enrich_loop_available_sound
    (E : env) (today : datetime) (ck : cookies)
    (recs : list (gmap str pyval)) (w w' : world) (out : list pyval)
    (i : nat) (d d' : gmap str pyval) :
  enrich_loop E today ck (List.map PDict recs) w = (Ret out, w') ->
  recs !! i = Some d -> out !! i = Some (PDict d') ->
  d' !! u "_availability" = Some (PStr (u "available")) ->
  exists c ds,
    context_id_of d = Some c
    /\ fst (fetch_availability_dates E c ck (world_before w recs i)) = Ret (Some ds)
    /\ In (strftime_dmY today) ds
    /\ d' !! u "_dates" = Some (PList (List.map PStr ds)).
Proof.
  intros Hrun Hi Hi' Hav.
  rewrite (enrich_loop_dicts_at E today ck recs w out w' Hrun i d Hi) in Hi'.
  injection Hi' as <-.
  destruct (context_id_of d) as [c|] eqn:Hc.
  - destruct (enriched_with_fields today d (fetched E c ck (world_before w recs i)))
      as (_ & H2 & H3).
    rewrite H3 in Hav. injection Hav as Hav.
    apply determine_availability_available in Hav as (ds & Hds & Hin).
    exists c, ds. split; [reflexivity|]. split.
    + rewrite fetched_fetch. cbn [fst]. now rewrite Hds.
    + split; [exact Hin|]. rewrite H2, Hds. reflexivity.
  - destruct (enriched_with_fields today d None) as (_ & _ & H3).
    rewrite H3 in Hav. injection Hav as Hav. vm_compute in Hav. discriminate Hav.
Qed.

Lemma enrich_loop_available_sound_witness :
  exists c ds,
    context_id_of record_A = Some c
    /\ fst (fetch_availability_dates (sample_env true (PList []) today_body) c []
              (world_before world0 [record_A; record_B; record_A] 2))
       = Ret (Some ds)
    /\ In (strftime_dmY may_day) ds
    /\ enriched_with may_day record_A (Some [u "01/05/2024"]) !! u "_dates"
       = Some (PList (List.map PStr ds)).
Proof.
  apply (enrich_loop_available_sound
           (sample_env true (PList []) today_body) may_day []
           [record_A; record_B; record_A] world0
           {| requests := [u "X1"; u "X1"]; stdout := []; stderr := [] |}
           [PDict (enriched_with may_day record_A (Some [u "01/05/2024"]));
            PDict (enriched_with may_day record_B None);
            PDict (enriched_with may_day record_A (Some [u "01/05/2024"]))]
           2 record_A (enriched_with may_day record_A (Some [u "01/05/2024"]))).
  - vm_compute. reflexivity.
  - reflexivity.
  - reflexivity.
  - vm_compute. reflexivity.
Defined.

(** X14: an element of the list that is no dict ends the loop with
    [AttributeError]: the records before it were handled, their requests
    made, and nothing after it is looked at. *)
Theorem enrich_loop_not_a_dict
    (E : env) (today : datetime) (ck : cookies)
    (pre : list (gmap str pyval)) (v : pyval) (rest : list pyval) (w : world) :
  is_dict v = false ->
  exists w',
    enrich_loop E today ck (List.map PDict pre ++ v :: rest) w = (Raise AttributeError, w')
    /\ requests w' = requests w ++ omap context_id_of pre
    /\ stdout w' = stdout w /\ stderr w' = stderr w.
Proof. apply enrich_loop_stops. Qed.

Lemma enrich_loop_not_a_dict_witness :
  exists w',
    enrich_loop (sample_env true (PList []) today_body) may_day []
      (List.map PDict [record_A] ++ PStr (u "Beta") :: [PDict record_A]) world0
    = (Raise AttributeError, w')
    /\ requests w' = requests world0 ++ omap context_id_of [record_A]
    /\ stdout w' = stdout world0 /\ stderr w' = stderr world0.
Proof.
  apply (enrich_loop_not_a_dict (sample_env true (PList []) today_body) may_day []
           [record_A] (PStr (u "Beta")) [PDict record_A] world0).
  reflexivity.
Defined.

(** ** [main], continued *)

Section MainMore.

Lemma omap_length_le {A B} (f : A -> option B) (l : list A) :
  (length (omap f l) <= length l)%nat.
Proof.
  induction l as [|a l IH]; [reflexivity|].
  rewrite omap_cons_case. destruct (f a); simpl; lia.
Qed.

Lemma context_ids_nonempty (recs : list (gmap str pyval)) :
  Forall (fun c : str => c <> []) (omap context_id_of recs).
Proof.
  induction recs as [|d recs IH]; [constructor|].
  rewrite omap_cons_case. destruct (context_id_of d) as [c|] eqn:Hc; [|exact IH].
  constructor; [exact (context_id_of_nonempty d c Hc) | exact IH].
Qed.

End MainMore.

(** X15: a run of [main] over a list of records that returns has called
    [session.get] once for each record whose [id] yields an identifier, in
    the order of the records and with that identifier, and not otherwise;
    no call carries an empty identifier, and there are no more calls than
    records. Whether a call goes to the network or is answered from the
    cache is left to the session. *)
Theorem main_requests
    (E : env) (w w' : world) (recs : list (gmap str pyval)) (code : Z) :
  path_exists E = true ->
  json_load E = Ret (PList (List.map PDict recs)) ->
  main E w = (Ret code, w') ->
  requests w' = requests w ++ omap context_id_of recs
  /\ Forall (fun c : str => c <> []) (omap context_id_of recs)
  /\ (length (requests w') <= length (requests w) + length recs)%nat.
Proof.
  intros Hp Hload. rewrite (main_present E w Hp).
  unfold load_campgrounds, bind at 1, bind at 1, lift at 1. rewrite Hload.
  unfold ret at 1. unfold bind at 1, lift at 1.
  destruct (cached_session E) as [[]|e]; [|discriminate].
  unfold bind at 1, lift at 1.
  destruct (get_root E) as [ck|e]; [|discriminate].
  unfold bind at 1.
  destruct (enrich_loop_dicts E (now E) ck recs w) as (out & w1 & Hrun & Hreq & _).
  rewrite Hrun. unfold bind at 1, lift at 1.
  destruct (render E (List.map PDict out)) as [[]|e]; [|discriminate].
  unfold bind, print, ret. intros H. injection H as _ <-. cbn [requests].
  split; [exact Hreq|]. split; [apply context_ids_nonempty|].
  rewrite Hreq, length_app. pose proof (omap_length_le context_id_of recs). lia.
Qed.

Lemma main_requests_witness :
  requests (snd (main (sample_env true (PList (List.map PDict
                                         [record_A; record_B; record_blank; record_A]))
                         today_body) world0))
  = requests world0 ++ omap context_id_of [record_A; record_B; record_blank; record_A]
  /\ Forall (fun c : str => c <> [])
       (omap context_id_of [record_A; record_B; record_blank; record_A])
  /\ (length (requests (snd (main (sample_env true
                                     (PList (List.map PDict
                                        [record_A; record_B; record_blank; record_A]))
                                     today_body) world0)))
      <= length (requests world0) + length [record_A; record_B; record_blank; record_A])%nat.
Proof.
  apply (main_requests
           (sample_env true (PList (List.map PDict
                                      [record_A; record_B; record_blank; record_A]))
              today_body)
           world0 _ [record_A; record_B; record_blank; record_A] 0).
  - reflexivity.
  - reflexivity.
  - vm_compute. reflexivity.
Defined.

Example main_requests_example :
  requests (snd (main (sample_env true (PList (List.map PDict
                                         [record_A; record_B; record_blank; record_A]))
                         today_body) world0))
  = [u "X1"; u "X1"].
Proof. vm_compute. reflexivity. Qed.

(** X16: with the input file in place, a failure while the run is set up
    ends [main] with that exception before any availability request and
    before anything is printed: the file cannot be opened or decoded, its
    top level is no list ([ValueError]), the session cannot be built, or the
    request for the cookies raises. *)
Theorem main_setup_failure (E : env) (w : world) :
  path_exists E = true ->
  (forall e, json_load E = Raise e -> main E w = (Raise e, w))
  /\ (forall v, json_load E = Ret v -> is_list v = false ->
       main E w
       = (Raise (ValueError (u "all_campground.json: expected a list of objects")), w))
  /\ (forall l e, json_load E = Ret (PList l) -> cached_session E = Raise e ->
       main E w = (Raise e, w))
  /\ (forall l e, json_load E = Ret (PList l) -> cached_session E = Ret tt ->
       get_root E = Raise e ->
       main E w = (Raise e, w)).
Proof.
  intros Hp. rewrite (main_present E w Hp).
  unfold load_campgrounds, bind, lift. repeat split.
  - intros e ->. reflexivity.
  - intros v -> Hv. destruct v; try reflexivity. discriminate Hv.
  - intros l e -> ->. reflexivity.
  - intros l e -> -> ->. reflexivity.
Qed.

Lemma main_setup_failure_witness :
  main (sample_env true (PDict record_A) today_body) world0
  = (Raise (ValueError (u "all_campground.json: expected a list of objects")), world0)
  /\ main {| root_dir := u "/srv/nsw-campsites"; path_exists := true;
             json_load := Ret (PList [PDict record_A]); cached_session := Ret tt;
             now := may_day; get_root := Raise ConnectionError;
             session_get := fun _ _ _ => today_body;
             render := fun _ => Ret tt |} world0
     = (Raise ConnectionError, world0).
Proof.
  split.
  - apply (proj1 (proj2 (main_setup_failure
                           (sample_env true (PDict record_A) today_body) world0
                           eq_refl))
             (PDict record_A)); reflexivity.
  - apply (proj2 (proj2 (proj2 (main_setup_failure
             {| root_dir := u "/srv/nsw-campsites"; path_exists := true;
                json_load := Ret (PList [PDict record_A]); cached_session := Ret tt;
                now := may_day; get_root := Raise ConnectionError;
                session_get := fun _ _ _ => today_body;
                render := fun _ => Ret tt |} world0 eq_refl)))
             [PDict record_A] ConnectionError); reflexivity.
Defined.

(** ** Map rendering *)

Section Rendering.

Variable F : folium.

Lemma color_table_lookup (s : str) :
  color_table !! s
  = if decide (u "available" = s) then Some (u "green")
    else if decide (u "unavailable" = s) then Some (u "red")
    else if decide (u "unknown" = s) then Some (u "gray")
    else None.
Proof.
  unfold color_table. cbn [list_to_map foldr curry fst snd].
  rewrite !lookup_insert, lookup_empty. reflexivity.
Qed.

(** The colour that goes with a status. *)
Lemma color_of_Ret (status : pyval) (c : str) :
  color_of status = Ret c ->
  (c = u "green" <-> status = PStr (u "available"))
  /\ (c = u "red" <-> status = PStr (u "unavailable"))
  /\ (c = u "green" \/ c = u "red" \/ c = u "gray").
Proof.
  destruct status as [| | | |s| |]; cbn [color_of]; try discriminate;
    try solve [intros H; injection H as <-;
               repeat split; try discriminate; auto].
  rewrite color_table_lookup. intros H. injection H as <-.
  repeat case_decide; subst; repeat split; try discriminate; try congruence; auto.
Qed.

Lemma py_join_two (sep a : str) (t : pyval) (b : str) :
  py_join sep [t; PStr b] = Ret a -> exists ts, t = PStr ts /\ a = ts ++ sep ++ b.
Proof.
  destruct t; try discriminate. cbn. intros H. injection H as <-. eauto.
Qed.

Lemma py_join_three (sep a : str) (t : pyval) (b c : str) :
  py_join sep [t; PStr b; PStr c] = Ret a ->
  exists ts, t = PStr ts /\ a = ts ++ sep ++ b ++ sep ++ c.
Proof.
  destruct t; try discriminate. cbn. intros H. injection H as <-. eauto.
Qed.

Lemma py_join_title (sep : str) (t : pyval) (rest : list pyval) :
  is_str t = false -> py_join sep (t :: rest) = Raise TypeError.
Proof. destruct t; try reflexivity. discriminate. Qed.

(** The turn of a dict whose [coords] come to the dict [c]. *)
Lemma marker_of_coords (d c : gmap str pyval) :
  py_or (dict_get d (u "coords")) (PDict ∅) = PDict c ->
  marker_of F (PDict d)
  = match py_float F (dict_get c (u "lat")), py_float F (dict_get c (u "lon")) with
    | Some lat, Some lon =>
        let status := dict_get_default d (u "_availability") (PStr (u "unknown")) in
        let title := dict_get_default d (u "title") (PStr (u "Unknown campground")) in
        let context_id := dict_get d (u "_context_id") in
        let? colour := color_of status in
        let? text := py_join (u "<br/>") (popup_lines F title context_id status) in
        Ret (Some {| location := (lat, lon); popup := text; color := colour |})
    | _, _ => Ret None
    end.
Proof.
  intros Hc. unfold marker_of. rewrite Hc.
  destruct (py_float F (dict_get c (u "lat"))); [|reflexivity].
  destruct (py_float F (dict_get c (u "lon"))); reflexivity.
Qed.

(** What a placed marker says about its record. *)
Lemma marker_of_Some (d : gmap str pyval) (m : marker) :
  marker_of F (PDict d) = Ret (Some m) ->
  exists c lat lon title,
    py_or (dict_get d (u "coords")) (PDict ∅) = PDict c
    /\ py_float F (dict_get c (u "lat")) = Some lat
    /\ py_float F (dict_get c (u "lon")) = Some lon
    /\ location m = (lat, lon)
    /\ color_of (dict_get_default d (u "_availability") (PStr (u "unknown")))
       = Ret (color m)
    /\ dict_get_default d (u "title") (PStr (u "Unknown campground")) = PStr title
    /\ popup m
       = title ++ u "<br/>"
         ++ (if truthy (dict_get d (u "_context_id"))
             then u "ID: " ++ py_format F (dict_get d (u "_context_id")) ++ u "<br/>"
             else [])
         ++ u "Status: "
         ++ py_format F (dict_get_default d (u "_availability") (PStr (u "unknown"))).
Proof.
  intros H.
  destruct (py_or (dict_get d (u "coords")) (PDict ∅)) as [| | | | | |c] eqn:Hc;
    try (unfold marker_of in H; rewrite Hc in H; discriminate H).
  rewrite (marker_of_coords d c Hc) in H.
  destruct (py_float F (dict_get c (u "lat"))) as [lat|] eqn:Hlat; [|discriminate H].
  destruct (py_float F (dict_get c (u "lon"))) as [lon|] eqn:Hlon; [|discriminate H].
  cbv zeta in H. unfold result_bind in H.
  destruct (color_of _) as [colour|e] eqn:Hcol; [|discriminate H].
  destruct (py_join _ _) as [text|e] eqn:Hjoin; [|discriminate H].
  injection H as <-. cbn [location popup color].
  unfold popup_lines in Hjoin.
  destruct (truthy (dict_get d (u "_context_id"))).
  - apply py_join_three in Hjoin as (ts & Hts & ->).
    exists c, lat, lon, ts. repeat split; try assumption; try reflexivity.
    rewrite <- !app_assoc. reflexivity.
  - apply py_join_two in Hjoin as (ts & Hts & ->).
    exists c, lat, lon, ts. repeat split; try assumption; reflexivity.
Qed.

Lemma place_markers_Ret (l : list pyval) (placed out : list marker) :
  place_markers F l placed = Ret out -> out = placed ++ omap (marker_at F) l.
Proof.
  revert placed. induction l as [|cg l IH]; intros placed.
  - cbn. intros H. injection H as <-. now rewrite app_nil_r.
  - cbn [place_markers]. rewrite omap_cons_case. unfold marker_at at 1.
    unfold result_bind at 1.
    destruct (marker_of F cg) as [[m|]|e]; [| |discriminate].
    + unfold result_bind. destruct (add_marker F placed m); [|discriminate].
      intros H. apply IH in H. rewrite H, <- app_assoc. reflexivity.
    + apply IH.
Qed.

Lemma place_markers_Raise (pre : list pyval) (cg : pyval) (rest : list pyval)
    (placed mid : list marker) (e : exn) :
  place_markers F pre placed = Ret mid -> marker_of F cg = Raise e ->
  place_markers F (pre ++ cg :: rest) placed = Raise e.
Proof.
  revert placed. induction pre as [|x pre IH]; intros placed.
  - cbn [app place_markers]. intros _ ->. reflexivity.
  - cbn [app place_markers]. unfold result_bind at 1 3.
    destruct (marker_of F x) as [[m|]|e']; [| |discriminate].
    + unfold result_bind. destruct (add_marker F placed m); [|discriminate].
      apply IH.
    + apply IH.
Qed.

End Rendering.

(** X17: a record gets no marker, and raises nothing, when it has no
    [coords], when its [coords] are falsy (null, 0, an empty string, list or
    dict), or when they are a dict whose [lat] or [lon] does not convert to a
    float; a missing or null [lat] or [lon] never converts. *)
Theorem marker_of_without_coordinates (F : folium) (d : gmap str pyval) :
  (d !! u "coords" = None
   \/ (exists v, d !! u "coords" = Some v /\ truthy v = false)
   \/ (exists c, d !! u "coords" = Some (PDict c)
                 /\ (py_float F (dict_get c (u "lat")) = None
                     \/ py_float F (dict_get c (u "lon")) = None)) ->
   marker_of F (PDict d) = Ret None)
  /\ (forall (c : gmap str pyval) (k : str),
        c !! k = None \/ c !! k = Some PNone -> py_float F (dict_get c k) = None).
Proof.
  split.
  - intros [Hd | [(v & Hd & Hv) | (c & Hd & Hc)]].
    + rewrite (marker_of_coords F d ∅); [reflexivity|].
      unfold py_or, dict_get. rewrite Hd. reflexivity.
    + rewrite (marker_of_coords F d ∅); [reflexivity|].
      unfold py_or, dict_get. rewrite Hd, Hv. reflexivity.
    + rewrite (marker_of_coords F d c).
      * destruct Hc as [-> | Hlon]; [reflexivity|]. rewrite Hlon.
        destruct (py_float F (dict_get c (u "lat"))); reflexivity.
      * unfold py_or, dict_get. rewrite Hd. cbn [truthy].
        case_bool_decide as Hempty; [|reflexivity]. now rewrite Hempty.
  - intros c k [H | H]; unfold dict_get; rewrite H; reflexivity.
Qed.

Lemma marker_of_without_coordinates_witness :
  marker_of sample_folium (PDict record_A) = Ret None
  /\ marker_of sample_folium
       (PDict (dict_of [(u "coords", PDict (dict_of [(u "lat", PInt 3)]))])) = Ret None.
Proof.
  split.
  - apply (proj1 (marker_of_without_coordinates sample_folium record_A)).
    left. vm_compute. reflexivity.
  - apply (proj1 (marker_of_without_coordinates sample_folium
                    (dict_of [(u "coords", PDict (dict_of [(u "lat", PInt 3)]))]))).
    right. right. exists (dict_of [(u "lat", PInt 3)]). split.
    + vm_compute. reflexivity.
    + right.
      apply (proj2 (marker_of_without_coordinates sample_folium
                      (dict_of [(u "coords", PDict (dict_of [(u "lat", PInt 3)]))]))).
      left. vm_compute. reflexivity.
Defined.

(** X18: a record whose [coords] are truthy but no dict (a non-empty string
    or list, a number other than 0, [true]) makes [create_map] raise
    [AttributeError], wherever it stands in the list; so does an element
    that is no dict. *)
Theorem create_map_bad_coords
    (F : folium) (pre : list pyval) (cg : pyval) (rest : list pyval)
    (placed : list marker) :
  new_map F = Ret tt -> place_markers F pre [] = Ret placed ->
  (is_dict cg = false
   \/ exists d v, cg = PDict d /\ d !! u "coords" = Some v
                  /\ truthy v = true /\ is_dict v = false) ->
  create_map F (pre ++ cg :: rest) = Raise AttributeError.
Proof.
  intros Hnew Hpre Hbad. unfold create_map. rewrite Hnew. cbn [result_bind].
  rewrite (place_markers_Raise F pre cg rest [] placed AttributeError Hpre);
    [reflexivity|].
  destruct Hbad as [Hcg | (d & v & -> & Hd & Ht & Hv)].
  - destruct cg; try reflexivity. discriminate Hcg.
  - unfold marker_of, py_or, dict_get. rewrite Hd, Ht.
    destruct v; try reflexivity. discriminate Hv.
Qed.

Lemma create_map_bad_coords_witness :
  create_map sample_folium
    ([PDict record_placed] ++ PDict record_bad_coords :: [PDict record_A])
  = Raise AttributeError.
Proof.
  apply (create_map_bad_coords sample_folium [PDict record_placed]
           (PDict record_bad_coords) [PDict record_A]
           [{| location := (S754_finite true 33 0, S754_finite false 151 0);
               popup := u "Alpha<br/>Status: unknown"; color := u "gray" |}]).
  - reflexivity.
  - vm_compute. reflexivity.
  - right. exists record_bad_coords, (PStr (u "-33,151")).
    repeat split.
Defined.

(** X19: a record with coordinates that convert makes [create_map] raise
    [TypeError] when its [title] is no string or its [_availability] is a
    list or a dict. *)
Theorem create_map_bad_title
    (F : folium) (pre : list pyval) (d c : gmap str pyval) (rest : list pyval)
    (placed : list marker) (lat lon : spec_float) :
  new_map F = Ret tt -> place_markers F pre [] = Ret placed ->
  d !! u "coords" = Some (PDict c) ->
  py_float F (dict_get c (u "lat")) = Some lat ->
  py_float F (dict_get c (u "lon")) = Some lon ->
  ((exists t, d !! u "title" = Some t /\ is_str t = false)
   \/ (exists st, d !! u "_availability" = Some st
                  /\ (is_list st = true \/ is_dict st = true))) ->
  create_map F (pre ++ PDict d :: rest) = Raise TypeError.
Proof.
  intros Hnew Hpre Hd Hlat Hlon Hbad. unfold create_map. rewrite Hnew.
  cbn [result_bind].
  rewrite (place_markers_Raise F pre (PDict d) rest [] placed TypeError Hpre);
    [reflexivity|].
  rewrite (marker_of_coords F d c).
  - rewrite Hlat, Hlon. cbv zeta.
    destruct Hbad as [(t & Ht & Hstr) | (st & Hst & Hkind)].
    + destruct (color_of _) as [colour|e] eqn:Hcol; cbn [result_bind].
      * assert (Ht' : dict_get_default d (u "title") (PStr (u "Unknown campground")) = t)
          by (unfold dict_get_default; now rewrite Ht).
        rewrite Ht'. unfold popup_lines.
        destruct (truthy _); rewrite py_join_title by exact Hstr; reflexivity.
      * destruct (dict_get_default d (u "_availability") (PStr (u "unknown")));
          cbn in Hcol; congruence.
    + assert (Hst' : dict_get_default d (u "_availability") (PStr (u "unknown")) = st)
        by (unfold dict_get_default; now rewrite Hst).
      rewrite Hst'.
      destruct st; destruct Hkind as [Hk | Hk]; try discriminate Hk; reflexivity.
  - unfold py_or, dict_get. rewrite Hd. cbn [truthy].
    case_bool_decide as Hempty; [|reflexivity]. now rewrite Hempty.
Qed.

Lemma create_map_bad_title_witness :
  create_map sample_folium ([] ++ PDict record_bad_title :: [PDict record_A])
  = Raise TypeError.
Proof.
  apply (create_map_bad_title sample_folium [] record_bad_title
           (dict_of [(u "lat", PInt (-33)); (u "lon", PInt 151)])
           [PDict record_A] []
           (S754_finite true 33 0) (S754_finite false 151 0)).
  - reflexivity.
  - reflexivity.
  - vm_compute. reflexivity.
  - vm_compute. reflexivity.
  - vm_compute. reflexivity.
  - left. exists (PInt 7). split; [vm_compute|]; reflexivity.
Defined.

(** X20: the icon of a marker is green exactly when the record's
    [_availability] is the string available, red exactly when it is
    unavailable, and gray in every other case, a missing [_availability]
    included. *)
Theorem marker_colour (F : folium) (d : gmap str pyval) (m : marker) :
  marker_of F (PDict d) = Ret (Some m) ->
  (color m = u "green" <-> d !! u "_availability" = Some (PStr (u "available")))
  /\ (color m = u "red" <-> d !! u "_availability" = Some (PStr (u "unavailable")))
  /\ (color m = u "green" \/ color m = u "red" \/ color m = u "gray").
Proof.
  intros H. apply marker_of_Some in H as (c & lat & lon & title & _ & _ & _ & _ & Hcol & _).
  apply color_of_Ret in Hcol as (Hg & Hr & Hall).
  unfold dict_get_default in Hg, Hr.
  split; [|split; [|exact Hall]].
  - rewrite Hg. destruct (d !! u "_availability"); split; intros Heq;
      try congruence; discriminate Heq.
  - rewrite Hr. destruct (d !! u "_availability"); split; intros Heq;
      try congruence; discriminate Heq.
Qed.

Lemma marker_colour_witness :
  (u "gray" = u "green" <-> record_placed !! u "_availability" = Some (PStr (u "available")))
  /\ (u "gray" = u "red"
      <-> record_placed !! u "_availability" = Some (PStr (u "unavailable")))
  /\ (u "gray" = u "green" \/ u "gray" = u "red" \/ u "gray" = u "gray").
Proof.
  apply (marker_colour sample_folium record_placed
           {| location := (S754_finite true 33 0, S754_finite false 151 0);
              popup := u "Alpha<br/>Status: unknown"; color := u "gray" |}).
  vm_compute. reflexivity.
Defined.

(** X21: the popup of a marker is the record's [title], which is a string
    (or "Unknown campground" when the record has none), then a line with the
    [_context_id] when that is truthy, then the status line, joined by line
    breaks. *)
Theorem marker_popup (F : folium) (d : gmap str pyval) (m : marker) :
  marker_of F (PDict d) = Ret (Some m) ->
  exists title,
    (d !! u "title" = Some (PStr title)
     \/ d !! u "title" = None /\ title = u "Unknown campground")
    /\ popup m
       = title ++ u "<br/>"
         ++ (if truthy (dict_get d (u "_context_id"))
             then u "ID: " ++ py_format F (dict_get d (u "_context_id")) ++ u "<br/>"
             else [])
         ++ u "Status: "
         ++ py_format F (dict_get_default d (u "_availability") (PStr (u "unknown"))).
Proof.
  intros H.
  apply marker_of_Some in H as (c & lat & lon & title & _ & _ & _ & _ & _ & Ht & Hp).
  exists title. split; [|exact Hp].
  unfold dict_get_default in Ht. destruct (d !! u "title") as [t|].
  - left. now rewrite Ht.
  - right. split; [reflexivity | now injection Ht].
Qed.

Lemma marker_popup_witness :
  exists title,
    (record_placed !! u "title" = Some (PStr title)
     \/ record_placed !! u "title" = None /\ title = u "Unknown campground")
    /\ u "Alpha<br/>Status: unknown"
       = title ++ u "<br/>"
         ++ (if truthy (dict_get record_placed (u "_context_id"))
             then u "ID: "
                  ++ py_format sample_folium (dict_get record_placed (u "_context_id"))
                  ++ u "<br/>"
             else [])
         ++ u "Status: "
         ++ py_format sample_folium
              (dict_get_default record_placed (u "_availability") (PStr (u "unknown"))).
Proof.
  apply (marker_popup sample_folium record_placed
           {| location := (S754_finite true 33 0, S754_finite false 151 0);
              popup := u "Alpha<br/>Status: unknown"; color := u "gray" |}).
  vm_compute. reflexivity.
Defined.

(** X22: the map that [create_map] returns holds, in the order of the
    records, one marker for each record whose turn reached [folium.Marker]
    and none for the others, so never more markers than records; the bounds
    are fitted exactly when there is a marker. *)
Theorem create_map_markers (F : folium) (l : list pyval) (fm : folium_map) :
  create_map F l = Ret fm ->
  markers fm = omap (marker_at F) l
  /\ (fitted fm = true <-> markers fm <> [])
  /\ (length (markers fm) <= length l)%nat.
Proof.
  unfold create_map. destruct (new_map F); [|discriminate]. cbn [result_bind].
  destruct (place_markers F l []) as [placed|e] eqn:Hpl; [|discriminate].
  cbn [result_bind]. apply place_markers_Ret in Hpl. cbn [app] in Hpl.
  assert (Hlen : (length placed <= length l)%nat)
    by (rewrite Hpl; apply omap_length_le).
  destruct placed as [|m placed].
  - intros H. injection H as <-. cbn [markers fitted].
    split; [exact Hpl|]. split; [|exact Hlen]. split; [discriminate | congruence].
  - destruct (fit_bounds F _); [|discriminate]. cbn [result_bind].
    intros H. injection H as <-. cbn [markers fitted].
    split; [exact Hpl|]. split; [|exact Hlen]. split; [discriminate | reflexivity].
Qed.

Lemma create_map_markers_witness :
  markers {| markers := [{| location := (S754_finite true 33 0, S754_finite false 151 0);
                            popup := u "Alpha<br/>Status: unknown";
                            color := u "gray" |}];
             fitted := true |}
  = omap (marker_at sample_folium) [PDict record_B; PDict record_placed; PDict record_A]
  /\ (true = true
      <-> [{| location := (S754_finite true 33 0, S754_finite false 151 0);
              popup := u "Alpha<br/>Status: unknown"; color := u "gray" |}] <> [])
  /\ (1 <= 3)%nat.
Proof.
  apply (create_map_markers sample_folium
           [PDict record_B; PDict record_placed; PDict record_A]
           {| markers := [{| location := (S754_finite true 33 0, S754_finite false 151 0);
                             popup := u "Alpha<br/>Status: unknown";
                             color := u "gray" |}];
              fitted := true |}).
  vm_compute. reflexivity.
Defined.

(** ** From the loop to the map *)

Section LoopToMap.

Variable E : env.
Variable F : folium.

Lemma determine_availability_unknown (today : datetime) (dates : option (list str)) :
  determine_availability today dates = u "unknown"
  <-> dates = None \/ dates = Some [].
Proof.
  destruct dates as [[|a ds]|].
  - split; auto.
  - rewrite determine_availability_nonempty. split.
    + destruct (str_in _ _); intros H; vm_compute in H; discriminate H.
    + intros [H | H]; discriminate H.
  - split; auto.
Qed.

Lemma determine_availability_unavailable (today : datetime) (dates : option (list str)) :
  determine_availability today dates = u "unavailable"
  <-> exists ds, dates = Some ds /\ ds <> [] /\ ~ In (strftime_dmY today) ds.
Proof.
  destruct dates as [[|a ds]|].
  - split; [intros H; vm_compute in H; discriminate H|].
    intros (ds & Hds & Hne & _). injection Hds as <-. congruence.
  - rewrite determine_availability_nonempty.
    destruct (str_in (strftime_dmY today) (a :: ds)) eqn:Hin.
    + split; [intros H; vm_compute in H; discriminate H|].
      intros (ds' & Hds & _ & Hnot). injection Hds as <-.
      apply str_in_In in Hin. destruct (Hnot Hin).
    + split; [|reflexivity]. intros _. exists (a :: ds).
      split; [reflexivity|]. split; [discriminate|].
      intros H. apply str_in_In in H. congruence.
  - split; [intros H; vm_compute in H; discriminate H|].
    intros (ds & Hds & _). discriminate Hds.
Qed.

Lemma determine_availability_three (today : datetime) (dates : option (list str)) :
  determine_availability today dates = u "available"
  \/ determine_availability today dates = u "unavailable"
  \/ determine_availability today dates = u "unknown".
Proof.
  destruct dates as [[|a ds]|]; [right; right; reflexivity | | right; right; reflexivity].
  rewrite determine_availability_nonempty.
  destruct (str_in _ _); [left | right; left]; reflexivity.
Qed.

Lemma enrich_loop_with_folium (today : datetime) (ck : cookies) (l : list pyval)
    (w : world) :
  enrich_loop (with_folium E F) today ck l w = enrich_loop E today ck l w.
Proof.
  revert w. induction l as [|cg l IH]; intros w; [reflexivity|].
  cbn [enrich_loop]. unfold bind at 1 3.
  change (enrich_record (with_folium E F) today ck cg w)
    with (enrich_record E today ck cg w).
  destruct (enrich_record E today ck cg w) as [[v|e] w1]; [|reflexivity].
  unfold bind. now rewrite IH.
Qed.

Lemma place_markers_no_raise (l : list pyval) (placed out : list marker) :
  place_markers F l placed = Ret out ->
  Forall (fun cg => exists r, marker_of F cg = Ret r) l.
Proof.
  revert placed. induction l as [|cg l IH]; intros placed; [constructor|].
  cbn [place_markers]. unfold result_bind at 1.
  destruct (marker_of F cg) as [[m|]|e] eqn:Hm; [| |discriminate].
  - unfold result_bind. destruct (add_marker F placed m); [|discriminate].
    intros H. constructor; [eauto | exact (IH _ H)].
  - intros H. constructor; [eauto | exact (IH _ H)].
Qed.

Lemma marker_of_not_dict_coords (d : gmap str pyval) (v : pyval) :
  d !! u "coords" = Some v -> truthy v = true -> is_dict v = false ->
  marker_of F (PDict d) = Raise AttributeError.
Proof.
  intros Hd Ht Hv. unfold marker_of, py_or, dict_get. rewrite Hd, Ht.
  destruct v; try reflexivity. discriminate Hv.
Qed.

End LoopToMap.

(** X23: for a record as the loop enriches it, the marker is green exactly
    when the fetcher's list holds the day, red exactly when that list is not
    empty and does not hold the day, and gray exactly when there is no list
    or an empty one; the popup is the record's title (or the default title),
    the line of the identifier exactly when the record yielded one, and the
    line of the status. *)
Theorem enriched_marker
    (E : env) (F : folium) (today : datetime) (ck : cookies)
    (d : gmap str pyval) (w w' : world) (cg' : pyval) (m : marker) :
  enrich_record E today ck (PDict d) w = (Ret cg', w') ->
  marker_of F cg' = Ret (Some m) ->
  exists dates title,
    match context_id_of d with
    | Some c => fst (fetch_availability_dates E c ck w) = Ret dates
    | None => dates = None
    end
    /\ (d !! u "title" = Some (PStr title)
        \/ d !! u "title" = None /\ title = u "Unknown campground")
    /\ (color m = u "green" <-> exists ds, dates = Some ds /\ In (strftime_dmY today) ds)
    /\ (color m = u "red"
        <-> exists ds, dates = Some ds /\ ds <> [] /\ ~ In (strftime_dmY today) ds)
    /\ (color m = u "gray" <-> dates = None \/ dates = Some [])
    /\ popup m
       = title ++ u "<br/>"
         ++ match context_id_of d with
            | Some c => u "ID: " ++ c ++ u "<br/>"
            | None => []
            end
         ++ u "Status: " ++ determine_availability today dates.
Proof.
  intros Hrun Hm. rewrite enrich_record_dict in Hrun.
  assert (Hex : exists dates,
             cg' = PDict (enriched_with today d dates)
             /\ match context_id_of d with
                | Some c => fst (fetch_availability_dates E c ck w) = Ret dates
                | None => dates = None
                end).
  { destruct (context_id_of d) as [c|]; injection Hrun as <- _.
    - exists (fetched E c ck w). split; [reflexivity|].
      now rewrite fetch_availability_dates_run.
    - exists None. split; reflexivity. }
  destruct Hex as (dates & -> & Hdates).
  destruct (enriched_with_fields today d dates) as (Hctx & _ & Hst).
  apply marker_of_Some
    in Hm as (c & lat & lon & title & _ & _ & _ & _ & Hcol & Htitle & Hp).
  unfold dict_get_default in Hcol, Hp. rewrite Hst in Hcol, Hp.
  unfold dict_get in Hp. rewrite Hctx in Hp.
  exists dates, title. split; [exact Hdates|].
  split.
  { unfold dict_get_default in Htitle. rewrite enriched_with_frame in Htitle.
    - destruct (d !! u "title") as [t|].
      + left. now rewrite Htitle.
      + right. split; [reflexivity | now injection Htitle].
    - unfold derived_keys. intros [H | [H | [H | []]]]; discriminate H. }
  assert (Hc : color m = match color_table !! determine_availability today dates with
                         | Some c => c | None => u "gray" end)
    by (cbn [color_of] in Hcol; now injection Hcol).
  assert (Hpop : popup m
                 = title ++ u "<br/>"
                   ++ match context_id_of d with
                      | Some c => u "ID: " ++ c ++ u "<br/>"
                      | None => []
                      end
                   ++ u "Status: " ++ determine_availability today dates).
  { rewrite Hp. cbn [py_format].
    destruct (context_id_of d) as [cid|] eqn:Hcid; cbn [of_optstr truthy].
    - pose proof (context_id_of_truthy d cid Hcid) as Ht. cbn [of_optstr truthy] in Ht.
      rewrite Ht. reflexivity.
    - reflexivity. }
  rewrite <- (determine_availability_available today dates),
    <- (determine_availability_unavailable today dates),
    <- (determine_availability_unknown today dates).
  destruct (determine_availability_three today dates) as [Hs | [Hs | Hs]];
    rewrite Hs in Hc, Hpop |- *; rewrite Hc;
    (split; [|split; [|split; [|exact Hpop]]]);
    split; intros Heq;
    first [ vm_compute; reflexivity | vm_compute in Heq; discriminate Heq ].
Qed.

Lemma enriched_marker_witness :
  exists dates title,
    match context_id_of record_placed with
    | Some c => fst (fetch_availability_dates (sample_env true (PList []) today_body)
                       c [] world0) = Ret dates
    | None => dates = None
    end
    /\ (record_placed !! u "title" = Some (PStr title)
        \/ record_placed !! u "title" = None /\ title = u "Unknown campground")
    /\ (u "green" = u "green"
        <-> exists ds, dates = Some ds /\ In (strftime_dmY may_day) ds)
    /\ (u "green" = u "red"
        <-> exists ds, dates = Some ds /\ ds <> [] /\ ~ In (strftime_dmY may_day) ds)
    /\ (u "green" = u "gray" <-> dates = None \/ dates = Some [])
    /\ u "Alpha<br/>ID: X1<br/>Status: available"
       = title ++ u "<br/>"
         ++ match context_id_of record_placed with
            | Some c => u "ID: " ++ c ++ u "<br/>"
            | None => []
            end
         ++ u "Status: " ++ determine_availability may_day dates.
Proof.
  apply (enriched_marker (sample_env true (PList []) today_body) sample_folium
           may_day [] record_placed world0
           (requested world0 (u "X1"))
           (PDict (enriched_with may_day record_placed (Some [u "01/05/2024"])))
           {| location := (S754_finite true 33 0, S754_finite false 151 0);
              popup := u "Alpha<br/>ID: X1<br/>Status: available";
              color := u "green" |}).
  - vm_compute. reflexivity.
  - vm_compute. reflexivity.
Defined.

(** X24: one record whose [coords] are truthy but no dict is enough for the
    whole run to end in an exception: with rendering done by [create_map],
    [main] makes every availability request of the list, then raises, and
    prints nothing. *)
Theorem main_bad_coords_fails
    (E : env) (F : folium) (w : world) (recs : list (gmap str pyval)) (ck : cookies)
    (i : nat) (d : gmap str pyval) (v : pyval) :
  path_exists E = true ->
  json_load E = Ret (PList (List.map PDict recs)) ->
  cached_session E = Ret tt ->
  get_root E = Ret ck ->
  recs !! i = Some d -> d !! u "coords" = Some v ->
  truthy v = true -> is_dict v = false ->
  exists e w1,
    main (with_folium E F) w = (Raise e, w1)
    /\ requests w1 = requests w ++ omap context_id_of recs
    /\ stdout w1 = stdout w /\ stderr w1 = stderr w.
Proof.
  intros Hp Hload Hsess Hck Hi Hd Ht Hv.
  rewrite (main_present (with_folium E F) w Hp).
  unfold load_campgrounds, bind at 1, bind at 1, lift at 1.
  cbn [with_folium json_load cached_session get_root now render].
  rewrite Hload. unfold ret at 1. unfold bind at 1, lift at 1. rewrite Hsess.
  unfold bind at 1, lift at 1. rewrite Hck. unfold bind at 1.
  rewrite enrich_loop_with_folium.
  destruct (enrich_loop_dicts E (now E) ck recs w) as (out & w1 & Hrun & Hreq & Hall).
  rewrite Hrun.
  pose proof (enrich_loop_streams E (now E) ck _ _ _ _ Hrun) as [Ho He].
  assert (Hraise : exists e, render_with F (List.map PDict out) = Raise e).
  { unfold render_with, create_map.
    destruct (new_map F) as [[]|e]; [|eauto]. cbn [result_bind].
    destruct (place_markers F (List.map PDict out) []) as [placed|e] eqn:Hpl; [|eauto].
    exfalso. apply place_markers_no_raise in Hpl.
    destruct (Forall2_lookup_l _ _ _ _ _ Hall Hi) as (d' & Hd' & dates & -> & _).
    assert (Hin : List.map PDict out !! i
                  = Some (PDict (enriched_with (now E) d dates)))
      by (rewrite list_lookup_fmap, Hd'; reflexivity).
    destruct (proj1 (Forall_lookup _ _) Hpl _ _ Hin) as (r & Hr).
    rewrite (marker_of_not_dict_coords F _ v) in Hr; try assumption; [discriminate Hr|].
    rewrite enriched_with_frame; [exact Hd|].
    unfold derived_keys. intros [H | [H | [H | []]]]; discriminate H. }
  destruct Hraise as (e & Hraise).
  exists e, w1. unfold bind at 1, lift at 1. rewrite Hraise. auto.
Qed.

Lemma main_bad_coords_fails_witness :
  exists e w1,
    main (with_folium
            (sample_env true (PList (List.map PDict [record_placed; record_bad_coords]))
               today_body)
            sample_folium) world0 = (Raise e, w1)
    /\ requests w1 = requests world0 ++ omap context_id_of [record_placed; record_bad_coords]
    /\ stdout w1 = stdout world0 /\ stderr w1 = stderr world0.
Proof.
  apply (main_bad_coords_fails
           (sample_env true (PList (List.map PDict [record_placed; record_bad_coords]))
              today_body)
           sample_folium world0 [record_placed; record_bad_coords] []
           1 record_bad_coords (PStr (u "-33,151")));
    try reflexivity.
Defined.

Example main_bad_coords_example :
  fst (main (with_folium
               (sample_env true (PList (List.map PDict [record_placed; record_bad_coords]))
                  today_body)
               sample_folium) world0) = Raise AttributeError.
Proof. vm_compute. reflexivity. Qed.

Example main_rendered_example :
  main (with_folium
          (sample_env true (PList (List.map PDict [record_placed; record_B])) today_body)
          sample_folium) world0
  = (Ret 0, {| requests := [u "X1"]; stdout := [u "Wrote map to index.html"];
               stderr := [] |}).
Proof. vm_compute. reflexivity. Qed.
